(** * insomnia-plugin-response-cookie: the [responseCookie] template tag

    A shallow embedding of [src/index.js].  The tag reads the latest response
    of a dependent request, optionally re-sends that request first, and
    returns the value of one cookie found in the response's [Set-Cookie]
    headers.

    Conventions of the embedding.
    - JavaScript strings are [string]; the strings the plugin compares after
      lower-casing (enum values, the header name [set-cookie]) are ASCII, and
      [toLowerCase] is modelled on ASCII letters.
    - JavaScript numbers are IEEE-754 binary64 values, [spec_float] with
      precision 53 and maximal exponent 1024.
    - [undefined]/[null] is [None].
    - A [throw] is the [Throw] completion; [await] is sequencing.
    - Arrays of request ids are objects shared by reference: they live in a
      heap, and [getExtraInfo] hands out the stored reference, as the host's
      accessor returns the stored value itself.
    - The transport is any function of the request, the forwarded metadata
      and the heap; every call of it is recorded in the state. *)

From Stdlib Require Import ZArith List String Ascii Bool Lia QArith Qpower.
From Stdlib Require Import Floats.SpecFloat DecimalString.
Import ListNotations.

Local Open Scope Z_scope.
Local Open Scope string_scope.

(* ================================================================== *)
(** ** JavaScript values used by the plugin *)
(* ================================================================== *)

Module Js.

(** binary64 *)
Definition prec : Z := 53.
Definition emax : Z := 1024.

Definition number := spec_float.

Definition NaN : number := S754_nan.

(** The number denoted by an integer literal. *)
Definition of_Z (z : Z) : number := binary_normalize prec emax z 0 false.

(** [a - b] *)
Definition sub (a b : number) : number := SFsub prec emax a b.

(** [a / b] *)
Definition div (a b : number) : number := SFdiv prec emax a b.

(** [a > b]: false as soon as one side is NaN. *)
Definition gt (a b : number) : bool := SFltb b a.

(** [a == b] on numbers. *)
Definition num_eq (a b : number) : bool := SFeqb a b.

(** ToNumber of a possibly [undefined] number: [undefined] becomes NaN. *)
Definition ToNumber (v : option number) : number :=
  match v with
  | Some x => x
  | None => NaN
  end.

(** ToBoolean of a possibly absent string: [undefined] and [""] are falsy. *)
Definition truthy_string (v : option string) : bool :=
  match v with
  | None => false
  | Some s => negb (s =? "")
  end.

(** ToBoolean of a possibly absent integer: [undefined] and [0] are falsy. *)
Definition truthy_int (v : option Z) : bool :=
  match v with
  | None => false
  | Some z => negb (z =? 0)%Z
  end.

(** [v || d] for a possibly absent string [v]. *)
Definition or_string (v : option string) (d : string) : string :=
  match v with
  | Some s => if s =? "" then d else s
  | None => d
  end.

Definition lower_ascii (c : ascii) : ascii :=
  let n := nat_of_ascii c in
  if (Nat.leb 65 n && Nat.leb n 90)%bool then ascii_of_nat (n + 32) else c.

(** [s.toLowerCase()] *)
Fixpoint toLowerCase (s : string) : string :=
  match s with
  | EmptyString => EmptyString
  | String c s' => String (lower_ascii c) (toLowerCase s')
  end.

(** String(v) for a possibly absent integer. *)
Definition string_of_int (v : option Z) : string :=
  match v with
  | None => "undefined"
  | Some z => NilZero.string_of_int (Z.to_int z)
  end.

(** String(v) for a possibly absent string. *)
Definition string_of_str (v : option string) : string :=
  match v with
  | None => "undefined"
  | Some s => s
  end.

(** [l.join(sep)] on an array of strings. *)
Definition join (sep : string) (l : list string) : string :=
  String.concat sep l.

(** What a [throw] carries. *)
Inductive exn : Type :=
| Error (message : string)          (* [new Error(message)] *)
| ReferenceError (ident : string)   (* an undeclared identifier was read *)
| TypeError (prop : string).        (* [x.prop] with [x] undefined or null *)

(** Completion of an evaluation. *)
Inductive completion (A : Type) : Type :=
| Normal (a : A)
| Throw (e : exn).
Arguments Normal {A} a.
Arguments Throw {A} e.

Definition cbind {A B} (c : completion A) (k : A -> completion B)
  : completion B :=
  match c with
  | Normal a => k a
  | Throw e => Throw e
  end.

(** [l.filter(f)] where the callback may throw; elements are visited in
    index order and every element is visited. *)
Fixpoint filter {A} (f : A -> completion bool) (l : list A)
  : completion (list A) :=
  match l with
  | [] => Normal []
  | x :: l' =>
      cbind (f x) (fun b =>
      cbind (filter f l') (fun r =>
      Normal (if b then x :: r else r)))
  end.

(** [l.map(f)] where the callback may throw. *)
Fixpoint map {A B} (f : A -> completion B) (l : list A)
  : completion (list B) :=
  match l with
  | [] => Normal []
  | x :: l' =>
      cbind (f x) (fun y =>
      cbind (map f l') (fun r =>
      Normal (y :: r)))
  end.

End Js.

(* ================================================================== *)
(** ** Data model *)
(* ================================================================== *)

Module Header.
Record t := mk { name : string; value : string }.
End Header.

Module Cookie.
(** The two attributes of a tough-cookie [Cookie] the plugin reads. *)
Record t := mk { key : string; value : string }.
End Cookie.

(** A stored request; only [_id] is read. *)
Record Request := { _id : string }.

(** A stored response. *)
Record Response := {
  created : Js.number;
  statusCode : option Z;
  error : option string;
  headers : list Header.t
}.

(** The rest arguments of [run], typed as the tag's [args] declaration types
    them: a model id, a string, an enum string and a number.  A position past
    the end of the array, or holding [undefined], is [None]. *)
Record Args := {
  arg0 : option string;
  arg1 : option string;
  arg2 : option string;
  arg3 : option Js.number
}.

Record Options := {
  reqId : option string;
  cookieName : option string;
  triggerBehavior : string;
  maxAgeSeconds : option Js.number
}.

Module TriggerBehavior.
Definition Never := "never".
Definition NoHistory := "no-history".
Definition WhenExpired := "when-expired".
Definition Always := "always".
End TriggerBehavior.

Definition defaultTriggerBehaviour : string := TriggerBehavior.Never.

(** The declared [defaultValue] of the [maxAgeSeconds] argument. *)
Definition maxAgeSeconds_defaultValue : Js.number := Js.of_Z 60.

(* ================================================================== *)
(** ** State and effects *)
(* ================================================================== *)

(** Arrays of request ids are objects: a reference into the heap. *)
Definition ref := nat.
Definition Heap := list (list string).

Definition heap_get (h : Heap) (r : ref) : list string := nth r h [].

Fixpoint heap_set (h : Heap) (r : ref) (v : list string) : Heap :=
  match h, r with
  | [], _ => []
  | _ :: h', O => v :: h'
  | x :: h', S r' => x :: heap_set h' r' v
  end.

(** One invocation of [context.network.sendRequest]: its two arguments and
    the heap as it was when the call was made. *)
Record Sent := {
  sent_request : Request;
  sent_extraInfo : list (string * ref);
  sent_heap : Heap
}.

Record State := {
  heap : Heap;
  console : list string;
  sent : list Sent
}.

(** The [context] object handed to [run] by the host. *)
Record Context := {
  (* context.util.models.request.getById *)
  request_getById : string -> option Request;
  (* context.util.models.response.getLatestForRequestId *)
  response_getLatestForRequestId : string -> string -> option Response;
  (* context.context.getEnvironmentId() *)
  getEnvironmentId : string;
  (* context.context.getExtraInfo *)
  getExtraInfo : string -> option ref;
  (* context.renderPurpose *)
  renderPurpose : option string;
  (* what context.network.sendRequest answers, and what it does to the heap *)
  network_sendRequest :
    Request -> list (string * ref) -> Heap -> option Response * Heap
}.

Definition M (A : Type) : Type := State -> Js.completion A * State.

Definition ret {A} (a : A) : M A := fun st => (Js.Normal a, st).

Definition throw {A} (e : Js.exn) : M A := fun st => (Js.Throw e, st).

Definition bind {A B} (c : M A) (k : A -> M B) : M B :=
  fun st =>
    match c st with
    | (Js.Normal a, st') => k a st'
    | (Js.Throw e, st') => (Js.Throw e, st')
    end.

Definition lift {A} (c : Js.completion A) : M A := fun st => (c, st).

Notation "x <- c ;; k" := (bind c (fun x => k))
  (at level 61, c at next level, right associativity).
Notation "c ;;; k" := (bind c (fun _ => k))
  (at level 61, right associativity).

Definition logPrefix : string := "[" ++ "responseCookie" ++ " tag]".

(** [console.log(`${logPrefix} ${msg}`)] *)
Definition log (msg : string) : M unit :=
  fun st =>
    (Js.Normal tt,
     {| heap := heap st;
        console := app (console st) [logPrefix ++ " " ++ msg];
        sent := sent st |}).

(** [context.context.getExtraInfo("requestChain") || []]: the stored array
    itself when there is one, a freshly allocated empty array otherwise. *)
Definition getChain (context : Context) : M ref :=
  fun st =>
    match getExtraInfo context "requestChain" with
    | Some r => (Js.Normal r, st)
    | None =>
        (Js.Normal (List.length (heap st)),
         {| heap := app (heap st) [[]];
            console := console st;
            sent := sent st |})
    end.

(** Reading the elements of an array. *)
Definition elements (r : ref) : M (list string) :=
  fun st => (Js.Normal (heap_get (heap st) r), st).

(** [a.push(x)] *)
Definition push (r : ref) (x : string) : M unit :=
  fun st =>
    (Js.Normal tt,
     {| heap := heap_set (heap st) r (app (heap_get (heap st) r) [x]);
        console := console st;
        sent := sent st |}).

(** [await context.network.sendRequest(request, extraInfo)] *)
Definition sendRequest (context : Context) (request : Request)
    (extraInfo : list (string * ref)) : M (option Response) :=
  fun st =>
    let '(response, h) := network_sendRequest context request extraInfo (heap st) in
    (Js.Normal response,
     {| heap := h;
        console := console st;
        sent := app (sent st) [{| sent_request := request;
                                  sent_extraInfo := extraInfo;
                                  sent_heap := heap st |}] |}).

(* ================================================================== *)
(** ** The plugin *)
(* ================================================================== *)

(** [parseOptions], index.js 133-140 *)
Definition parseOptions (args : Args) : Options :=
  {| reqId := arg0 args;
     cookieName := arg1 args;
     triggerBehavior :=
       Js.toLowerCase (Js.or_string (arg2 args) defaultTriggerBehaviour);
     maxAgeSeconds := arg3 args |}.

(** [resendRequest], index.js 142-156 *)
Definition resendRequest (context : Context) (request : Request)
  : M (option Response) :=
  requestChain <- getChain context ;;
  ids <- elements requestChain ;;
  if existsb (fun id => id =? _id request) ids then
    log "Preventing recursive render" ;;;
    ret None
  else
    log "Resending dependency" ;;;
    push requestChain (_id request) ;;;
    sendRequest context request [("requestChain", requestChain)].

Section Plugin.

(** [Date.now()] *)
Variable Date_now : Js.number.

(** [Cookie.parse] of the tough-cookie package: a cookie, or nothing when
    the header value cannot be parsed. *)
Variable Cookie_parse : string -> option Cookie.t.

(** [getCookies], index.js 158-162 *)
Definition getCookies (response : Response) : list (option Cookie.t) :=
  List.map (fun h => Cookie_parse (Header.value h))
    (List.filter
       (fun h => Js.toLowerCase (Header.name h) =? "set-cookie")
       (headers response)).

(** [(Date.now() - response.created) / 1000] *)
Definition ageSeconds (response : Response) : Js.number :=
  Js.div (Js.sub Date_now (created response)) (Js.of_Z 1000).

(** [checkShouldResend], index.js 164-182 *)
Definition checkShouldResend (response : option Response) (options : Options)
  : bool :=
  if triggerBehavior options =? TriggerBehavior.Always then true
  else if triggerBehavior options =? TriggerBehavior.NoHistory then
    match response with None => true | Some _ => false end
  else if triggerBehavior options =? TriggerBehavior.WhenExpired then
    match response with
    | None => true
    | Some response =>
        Js.gt (ageSeconds response) (Js.ToNumber (maxAgeSeconds options))
    end
  else false.

(** [c.key] on a parse result. *)
Definition key_of (c : option Cookie.t) : Js.completion string :=
  match c with
  | Some c => Js.Normal (Cookie.key c)
  | None => Js.Throw (Js.TypeError "key")
  end.

(** [run], index.js 71-126 *)
Definition run (context : Context) (args : Args) : M string :=
  let options := parseOptions args in
  match reqId options with
  | None | Some "" => throw (Js.Error "No request specified")
  | Some id =>
  match cookieName options with
  | None | Some "" => throw (Js.Error "No cookie specified")
  | Some name =>
  match request_getById context id with
  | None =>
      (* index.js 83: the operand of [new Error] is evaluated first, and its
         template literal reads the identifier [reqId].  [run] binds
         [context], [args], [options] and [request], the module binds no
         [reqId] either (the id is [options.reqId]), so the read throws
         before any [Error] is built. *)
      throw (Js.ReferenceError "reqId")
  | Some request =>
      let environmentId := getEnvironmentId context in
      let response :=
        response_getLatestForRequestId context (_id request) environmentId in
      let shouldResend := checkShouldResend response options in
      response <-
        (if (shouldResend &&
             match renderPurpose context with
             | Some p => p =? "send"
             | None => false
             end)%bool
         then
           resent <- resendRequest context request ;;
           ret (match resent with Some r => Some r | None => response end)
         else ret response) ;;
      match response with
      | None =>
          log "No response found" ;;;
          throw (Js.Error "No responses for request")
      | Some response =>
          if Js.truthy_string (error response) then
            log ("Response error " ++ Js.string_of_str (error response)) ;;;
            throw (Js.Error ("Failed to send dependent request "
                             ++ Js.string_of_str (error response)))
          else if negb (Js.truthy_int (statusCode response)) then
            log ("Invalid status code "
                 ++ Js.string_of_int (statusCode response)) ;;;
            throw (Js.Error "No successful responses for request")
          else
            let cookies := getCookies response in
            if (List.length cookies =? 0)%nat then
              throw (Js.Error "No cookies set for response")
            else
              matching <-
                lift (Js.filter
                        (fun c => Js.cbind (key_of c)
                                    (fun k => Js.Normal (k =? name)))
                        cookies) ;;
              match matching with
              | Some cookie :: _ => ret (Cookie.value cookie)
              | _ =>
                  keys <- lift (Js.map key_of cookies) ;;
                  let cookieNames := Js.join ", " keys in
                  throw (Js.Error ("No " ++ name
                                   ++ " cookie for response. Choices are "
                                   ++ cookieNames ++ "."))
              end
      end
  end
  end
  end.

End Plugin.

(* ================================================================== *)
(** ** The two halves of [run], named for the statements below *)
(* ================================================================== *)

Section Phases.

Variable Date_now : Js.number.
Variable Cookie_parse : string -> option Cookie.t.

(** index.js 86-95: the latest stored response, superseded by the result
    of a re-execution when one happens and yields a response. *)
Definition obtainResponse (context : Context) (request : Request)
    (options : Options) : M (option Response) :=
  let response :=
    response_getLatestForRequestId context (_id request)
      (getEnvironmentId context) in
  if (checkShouldResend Date_now response options &&
      match renderPurpose context with
      | Some p => p =? "send"
      | None => false
      end)%bool
  then
    resent <- resendRequest context request ;;
    ret (match resent with Some r => Some r | None => response end)
  else ret response.

(** index.js 97-125: validation of the response and selection of the
    cookie called [name]. *)
Definition extractCookie (name : string) (response : option Response)
  : M string :=
  match response with
  | None =>
      log "No response found" ;;;
      throw (Js.Error "No responses for request")
  | Some response =>
      if Js.truthy_string (error response) then
        log ("Response error " ++ Js.string_of_str (error response)) ;;;
        throw (Js.Error ("Failed to send dependent request "
                         ++ Js.string_of_str (error response)))
      else if negb (Js.truthy_int (statusCode response)) then
        log ("Invalid status code "
             ++ Js.string_of_int (statusCode response)) ;;;
        throw (Js.Error "No successful responses for request")
      else
        let cookies := getCookies Cookie_parse response in
        if (List.length cookies =? 0)%nat then
          throw (Js.Error "No cookies set for response")
        else
          matching <-
            lift (Js.filter
                    (fun c => Js.cbind (key_of c)
                                (fun k => Js.Normal (k =? name)))
                    cookies) ;;
          match matching with
          | Some cookie :: _ => ret (Cookie.value cookie)
          | _ =>
              keys <- lift (Js.map key_of cookies) ;;
              let cookieNames := Js.join ", " keys in
              throw (Js.Error ("No " ++ name
                               ++ " cookie for response. Choices are "
                               ++ cookieNames ++ "."))
          end
  end.

End Phases.

(* ================================================================== *)
(** ** The failures of the specification, as the source throws them *)
(* ================================================================== *)

Inductive ErrorKind : Type :=
| MissingArgument
| RequestNotFound
| NoResponse
| DependencyFailed
| NoSuccessfulResponse
| NoCookies
| CookieNotFound.

(** [Kind k e]: [e] is what the [throw] statement for failure [k] builds. *)
Inductive Kind : ErrorKind -> Js.exn -> Prop :=
| Kind_no_request :                                   (* index.js 74 *)
    Kind MissingArgument (Js.Error "No request specified")
| Kind_no_cookie :                                    (* index.js 78 *)
    Kind MissingArgument (Js.Error "No cookie specified")
| Kind_request_not_found id :                         (* index.js 83 *)
    Kind RequestNotFound (Js.Error ("Could not find request " ++ id))
| Kind_no_response :                                  (* index.js 99 *)
    Kind NoResponse (Js.Error "No responses for request")
| Kind_dependency_failed err :                        (* index.js 104 *)
    Kind DependencyFailed
      (Js.Error ("Failed to send dependent request " ++ err))
| Kind_no_successful_response :                       (* index.js 109 *)
    Kind NoSuccessfulResponse (Js.Error "No successful responses for request")
| Kind_no_cookies :                                   (* index.js 114 *)
    Kind NoCookies (Js.Error "No cookies set for response")
| Kind_cookie_not_found name names :                  (* index.js 120-122 *)
    Kind CookieNotFound
      (Js.Error ("No " ++ name ++ " cookie for response. Choices are "
                 ++ Js.join ", " names ++ ".")).

(** The text a failure surfaces with: the [message] property. *)
Definition message (e : Js.exn) : string :=
  match e with
  | Js.Error m => m
  | Js.ReferenceError x => x ++ " is not defined"
  | Js.TypeError p =>
      "Cannot read properties of undefined (reading '" ++ p ++ "')"
  end.

(** [contains needle s]: [needle] occurs in [s]. *)
Definition contains (needle s : string) : bool :=
  match String.index 0 needle s with
  | Some _ => true
  | None => false
  end.

(** The [Set-Cookie] headers of a response, in header order. *)
Definition setCookieHeaders (response : Response) : list Header.t :=
  List.filter (fun h => Js.toLowerCase (Header.name h) =? "set-cookie")
    (headers response).

(** The first element satisfying a test. *)
Definition first_match {A} (p : A -> bool) (l : list A) : option A :=
  List.find p l.

(* ================================================================== *)
(** ** The real number a binary64 value stands for *)
(* ================================================================== *)

(** [value x] is the rational [(-1)^s * m * 2^e] of a finite [x]; infinities
    and NaN stand for no number. *)
Definition value (x : Js.number) : option Q :=
  match x with
  | S754_zero _ => Some 0%Q
  | S754_finite s m e => Some (inject_Z (cond_Zopp s (Zpos m)) * (2 ^ e))%Q
  | S754_infinity _ => None
  | S754_nan => None
  end.

(** Every binary64 value has a canonical mantissa and exponent; the
    representation type also holds triples that are not. *)
Definition is_binary64 (x : Js.number) : bool := valid_binary Js.prec Js.emax x.

(** [x] stands for a number: it is neither an infinity nor NaN. *)
Definition is_real (x : Js.number) : bool :=
  match x with
  | S754_zero _ | S754_finite _ _ _ => true
  | S754_infinity _ | S754_nan => false
  end.

(** The same number counted in units of [2^-1074], the smallest positive
    binary64 value: an integer for every binary64 value. *)
Definition fixed (x : Js.number) : Z :=
  match x with
  | S754_finite s m e => cond_Zopp s (Zpos m * 2 ^ (e + 1074))
  | _ => 0%Z
  end.

(** The exponent of the binary64 format for a number of magnitude [2^e]:
    [fexp] at precision 53 with least exponent [-1074]. *)
Definition fexp64 (e : Z) : Z := Z.max (e - 53) (-1074).

(* ================================================================== *)
(** ** Vocabulary of the statements *)
(* ================================================================== *)

(** [fails k e c]: the evaluation [c] ends by throwing [e], the failure [k]. *)
Definition fails {A} (k : ErrorKind) (e : Js.exn) (c : Js.completion A * State)
  : Prop :=
  fst c = Js.Throw e /\ Kind k e.

(** [context.renderPurpose === "send"] *)
Definition is_send (purpose : option string) : bool :=
  match purpose with
  | Some p => p =? "send"
  | None => false
  end.

(** The callback of [filter] in [run]: [c => c.key == name]. *)
Definition key_is (name : string) (c : option Cookie.t) : Js.completion bool :=
  Js.cbind (key_of c) (fun k => Js.Normal (k =? name)).

(** A response that passes validation. *)
Definition passes_validation (r : Response) : Prop :=
  Js.truthy_string (error r) = false /\ Js.truthy_int (statusCode r) = true.

(** The reading of the chain as a value that is copied: whenever
    [resendRequest] calls the transport, the array it forwards holds the
    stored chain followed by the request's id, while the array held by the
    store is, at that moment, what it was before. *)
Definition chain_passed_by_copy (context : Context) (request : Request)
    (st : State) : Prop :=
  forall r call,
    getExtraInfo context "requestChain" = Some r ->
    sent (snd (resendRequest context request st)) = app (sent st) [call] ->
    (exists r',
        sent_extraInfo call = [("requestChain", r')]
        /\ heap_get (sent_heap call) r'
           = app (heap_get (heap st) r) [_id request])
    /\ heap_get (sent_heap call) r = heap_get (heap st) r.

(* ================================================================== *)
(** ** A cookie parser and concrete hosts, for evaluating the plugin *)
(* ================================================================== *)

(** [split_at c s]: the parts of [s] before and after the first [c]. *)
Fixpoint split_at (c : ascii) (s : string) : option (string * string) :=
  match s with
  | EmptyString => None
  | String a s' =>
      if Ascii.eqb a c then Some (EmptyString, s')
      else match split_at c s' with
           | Some (l, r) => Some (String a l, r)
           | None => None
           end
  end.

(** Modelled from the spec: [Cookie.parse] belongs to the tough-cookie
    package, a dependency whose code is not part of this repository.  Each
    header value is one cookie, [name=value] followed by attributes that are
    discarded; a value with no [=], or with an empty name, is no cookie.
    The theorems hold for every parser; this one is used to evaluate the
    plugin on concrete responses. *)
Definition parse_cookie (s : string) : option Cookie.t :=
  let pair := match split_at ";" s with
              | Some (l, _) => l
              | None => s
              end in
  match split_at "=" pair with
  | Some (EmptyString, _) => None
  | Some (k, v) => Some (Cookie.mk k v)
  | None => None
  end.

(** A host with one stored request and at most one stored response. *)
Definition host (request : Request) (stored : option Response)
    (purpose : option string) (chain : option ref)
    (answer : option Response) : Context :=
  {| request_getById := fun id => if id =? _id request then Some request else None;
     response_getLatestForRequestId :=
       fun id _ => if id =? _id request then stored else None;
     getEnvironmentId := "env_1";
     getExtraInfo := fun k => if k =? "requestChain" then chain else None;
     renderPurpose := purpose;
     network_sendRequest := fun _ _ h => (answer, h) |}.

Definition state0 (h : Heap) : State :=
  {| heap := h; console := []; sent := [] |}.

Definition response_of (t : Z) (status : option Z) (err : option string)
    (hs : list Header.t) : Response :=
  {| created := Js.of_Z t; statusCode := status; error := err; headers := hs |}.

Definition mkArgs (r c : string) (t : option string) (m : option Js.number)
  : Args :=
  {| arg0 := Some r; arg1 := Some c; arg2 := t; arg3 := m |}.

(** Concrete requests, responses and clocks. *)
Module Scenario.

Definition t0 : Z := 1700000000000.
Definition req_1 : Request := {| _id := "req_1" |}.
Definition req_b : Request := {| _id := "req_b" |}.

Definition session_headers : list Header.t :=
  [Header.mk "Content-Type" "text/html";
   Header.mk "Set-Cookie" "session=abc123; Path=/; HttpOnly"].

(** A completed response created at [t0]. *)
Definition stored (hs : list Header.t) : Response :=
  response_of t0 (Some 200%Z) None hs.

(** The number a value stands for (0 when it stands for none). *)
Definition number_of (x : Js.number) : Q :=
  match value x with
  | Some q => q
  | None => 0%Q
  end.

(** The clock, [ms] milliseconds after [t0]. *)
Definition after (ms : Z) : Js.number := Js.of_Z (t0 + ms).

Definition args_of (name : string) (trigger : option string)
    (maxAge : option Js.number) : Args :=
  mkArgs "req_1" name trigger maxAge.

End Scenario.

(* ================================================================== *)
(** ** The [hide] callback of the [maxAgeSeconds] argument *)
(* ================================================================== *)

(** An element of the array the host hands to [hide]: an argument
    description, of which only [value] is read. *)
Module Arg.
Record t (A : Type) := mk { value : option A }.
Arguments mk {A} value.
Arguments value {A} t.
End Arg.

(** The array handed to [hide], typed like the rest arguments of [run]; a
    position past the end of the array is [None]. *)
Record ArgObjects := {
  obj0 : option (Arg.t string);
  obj1 : option (Arg.t string);
  obj2 : option (Arg.t string);
  obj3 : option (Arg.t Js.number)
}.

(** [a.value] for an element that may lie past the end of the array. *)
Definition value_of {A} (a : option (Arg.t A)) : option A :=
  match a with
  | Some a => Arg.value a
  | None => None
  end.

(** [args.map((a) => a.value)] *)
Definition values (args : ArgObjects) : Args :=
  {| arg0 := value_of (obj0 args);
     arg1 := value_of (obj1 args);
     arg2 := value_of (obj2 args);
     arg3 := value_of (obj3 args) |}.

(** [hide], index.js 61-66 *)
Definition hide (args : ArgObjects) : bool :=
  negb (triggerBehavior (parseOptions (values args))
        =? TriggerBehavior.WhenExpired).

(** The same options with another [maxAgeSeconds]. *)
Definition with_maxAgeSeconds (options : Options) (m : option Js.number)
  : Options :=
  {| reqId := reqId options;
     cookieName := cookieName options;
     triggerBehavior := triggerBehavior options;
     maxAgeSeconds := m |}.

(** The same response with another [error]. *)
Definition with_error (r : Response) (e : option string) : Response :=
  {| created := created r;
     statusCode := statusCode r;
     error := e;
     headers := headers r |}.

(** [ends_with c s]: the last character of [s] is [c]. *)
Fixpoint ends_with (c : ascii) (s : string) : bool :=
  match s with
  | EmptyString => false
  | String a EmptyString => Ascii.eqb a c
  | String _ s' => ends_with c s'
  end.



(* ================================================================== *)
(** ** Basic facts about the effects *)
(* ================================================================== *)

Lemma run_resolved Date_now parse context args id name request :
  arg0 args = Some id -> id <> "" ->
  arg1 args = Some name -> name <> "" ->
  request_getById context id = Some request ->
  run Date_now parse context args
  = bind (obtainResponse Date_now context request (parseOptions args))
         (extractCookie parse name).
Proof.
  intros Hid Hne Hname Hne' Hreq.
  unfold run. cbn [reqId cookieName parseOptions].
  rewrite Hid. destruct id as [|a id']; [congruence|].
  rewrite Hname. destruct name as [|b name']; [congruence|].
  rewrite Hreq. reflexivity.
Qed.

(** Nothing in [extractCookie] touches the heap or calls the transport. *)
Lemma extractCookie_frame parse name response st :
  heap (snd (extractCookie parse name response st)) = heap st
  /\ sent (snd (extractCookie parse name response st)) = sent st.
Proof.
  unfold extractCookie.
  destruct response as [r|]; [|split; reflexivity].
  destruct (Js.truthy_string (error r)); [split; reflexivity|].
  destruct (negb (Js.truthy_int (statusCode r))); [split; reflexivity|].
  cbv zeta.
  destruct (List.length (getCookies parse r) =? 0)%nat; [split; reflexivity|].
  unfold bind, lift.
  destruct (Js.filter _ _) as [matching|e]; [|split; reflexivity].
  destruct matching as [|[c|] ?];
    [destruct (Js.map key_of (getCookies parse r)); split; reflexivity
    |split; reflexivity
    |destruct (Js.map key_of (getCookies parse r)); split; reflexivity].
Qed.

Lemma toLowerCase_idempotent s : Js.toLowerCase (Js.toLowerCase s) = Js.toLowerCase s.
Proof.
  induction s as [|c s IH]; [reflexivity|].
  cbn [Js.toLowerCase]. rewrite IH. f_equal.
  destruct c as [[] [] [] [] [] [] [] []]; reflexivity.
Qed.

(** [x > NaN] is false for every [x]. *)
Lemma gt_NaN x : Js.gt x Js.NaN = false.
Proof. reflexivity. Qed.

(* ================================================================== *)
(** ** The resend decision *)
(* ================================================================== *)

(** C2.  The resend decision follows the decision table.  With the
    normalised trigger behaviour [never] the decision is false, with
    [no-history] it is true exactly when there is no last response, with
    [always] it is true, with [when-expired] and no last response it is
    true, and with any other string it is false, whether or not a last
    response exists; nothing is rejected.  [parseOptions] normalises the
    argument by lower-casing it, after replacing an absent or empty argument
    by [never]. *)
Theorem checkShouldResend_decision_table :
  forall (Date_now : Js.number) (response : option Response),
    (forall args,
        triggerBehavior (parseOptions args)
        = Js.toLowerCase (Js.or_string (arg2 args) TriggerBehavior.Never))
    /\
    (forall options,
        (triggerBehavior options = TriggerBehavior.Never ->
         checkShouldResend Date_now response options = false)
        /\ (triggerBehavior options = TriggerBehavior.NoHistory ->
            checkShouldResend Date_now response options
            = match response with None => true | Some _ => false end)
        /\ (triggerBehavior options = TriggerBehavior.Always ->
            checkShouldResend Date_now response options = true)
        /\ (triggerBehavior options = TriggerBehavior.WhenExpired ->
            checkShouldResend Date_now None options = true)
        /\ (triggerBehavior options <> TriggerBehavior.Never ->
            triggerBehavior options <> TriggerBehavior.NoHistory ->
            triggerBehavior options <> TriggerBehavior.WhenExpired ->
            triggerBehavior options <> TriggerBehavior.Always ->
            checkShouldResend Date_now response options = false)).
Proof.
  intros Date_now response. split; [reflexivity|].
  intros options. unfold checkShouldResend.
  split; [|split; [|split; [|split]]].
  - intros ->. reflexivity.
  - intros ->. reflexivity.
  - intros ->. reflexivity.
  - intros ->. reflexivity.
  - intros _ Hn He Ha.
    apply String.eqb_neq in Hn, He, Ha.
    rewrite Ha, Hn, He. reflexivity.
Qed.

(** C6, evaluated on the code.  [parseOptions] passes an absent fourth
    argument on as [undefined]; the comparison [ageSeconds > undefined] is
    false, so with [when-expired] and a last response the decision is false
    whatever the age of the response. *)
Theorem checkShouldResend_absent_maxAge :
  forall (Date_now : Js.number) (args : Args) (response : Response),
    arg3 args = None ->
    triggerBehavior (parseOptions args) = TriggerBehavior.WhenExpired ->
    maxAgeSeconds (parseOptions args) = None
    /\ checkShouldResend Date_now (Some response) (parseOptions args) = false.
Proof.
  intros Date_now args response Hnone Ht.
  split; [exact Hnone|].
  unfold checkShouldResend. rewrite Ht. cbn [String.eqb Ascii.eqb Bool.eqb TriggerBehavior.Always TriggerBehavior.NoHistory TriggerBehavior.WhenExpired].
  cbn [maxAgeSeconds parseOptions]. rewrite Hnone. apply gt_NaN.
Qed.

(* ================================================================== *)
(** ** Re-execution and the cycle guard *)
(* ================================================================== *)

Lemma is_send_false purpose : purpose <> Some "send" -> is_send purpose = false.
Proof.
  destruct purpose as [p|]; [|reflexivity].
  intros H. cbn. apply String.eqb_neq. congruence.
Qed.

Lemma existsb_id_true x l :
  In x l -> existsb (fun id => id =? x) l = true.
Proof.
  intros H. apply existsb_exists. exists x. split; [exact H|apply String.eqb_refl].
Qed.

Lemma existsb_id_false x l :
  ~ In x l -> existsb (fun id => id =? x) l = false.
Proof.
  intros H. destruct (existsb _ l) eqn:E; [|reflexivity].
  apply existsb_exists in E. destruct E as [y [Hy Heq]].
  apply String.eqb_eq in Heq. subst y. contradiction.
Qed.

(** The guard's branch: a normal completion with no value, one log line. *)
Lemma resendRequest_cycle context request st r :
  getExtraInfo context "requestChain" = Some r ->
  In (_id request) (heap_get (heap st) r) ->
  resendRequest context request st
  = (Js.Normal None, snd (log "Preventing recursive render" st)).
Proof.
  intros Hr Hin. unfold resendRequest, bind, getChain, elements.
  rewrite Hr. rewrite (existsb_id_true _ _ Hin). reflexivity.
Qed.

Lemma heap_get_set_same h r v :
  (r < List.length h)%nat -> heap_get (heap_set h r v) r = v.
Proof.
  revert r. induction h as [|x h IH]; intros r Hr; [cbn in Hr; lia|].
  destruct r as [|r]; [reflexivity|].
  cbn in Hr. unfold heap_get in *. cbn. apply IH. lia.
Qed.

Lemma heap_get_set_other h r r' v :
  r' <> r -> heap_get (heap_set h r v) r' = heap_get h r'.
Proof.
  revert r r'. induction h as [|x h IH]; intros r r' Hne; [reflexivity|].
  destruct r as [|r]; destruct r' as [|r']; try reflexivity; try congruence.
  unfold heap_get in *. cbn. apply IH. congruence.
Qed.

Lemma heap_get_fresh h v : heap_get (app h [v]) (List.length h) = v.
Proof.
  unfold heap_get. rewrite app_nth2 by lia. rewrite Nat.sub_diag. reflexivity.
Qed.

Lemma heap_get_old h v r :
  (r < List.length h)%nat -> heap_get (app h [v]) r = heap_get h r.
Proof. intros H. unfold heap_get. apply app_nth1. exact H. Qed.

Lemma heap_set_fresh h v w :
  heap_set (app h [v]) (List.length h) w = app h [w].
Proof. induction h as [|x h IH]; [reflexivity|]. cbn. rewrite IH. reflexivity. Qed.

(** The sending branch when the store holds a chain. *)
Lemma resendRequest_stored context request st r :
  getExtraInfo context "requestChain" = Some r ->
  ~ In (_id request) (heap_get (heap st) r) ->
  resendRequest context request st
  = sendRequest context request [("requestChain", r)]
      (snd (push r (_id request) (snd (log "Resending dependency" st)))).
Proof.
  intros Hr Hin. unfold resendRequest, bind, getChain, elements.
  rewrite Hr. rewrite (existsb_id_false _ _ Hin). reflexivity.
Qed.

(** The sending branch when the store holds no chain. *)
Lemma resendRequest_fresh context request st :
  getExtraInfo context "requestChain" = None ->
  resendRequest context request st
  = sendRequest context request [("requestChain", List.length (heap st))]
      {| heap := app (heap st) [[_id request]];
         console := app (console st) [logPrefix ++ " " ++ "Resending dependency"];
         sent := sent st |}.
Proof.
  intros Hr. unfold resendRequest, bind, getChain, elements.
  rewrite Hr. cbn [heap snd fst].
  rewrite heap_get_fresh. cbn [existsb].
  unfold log, push. cbn [heap console sent].
  rewrite heap_get_fresh, heap_set_fresh. reflexivity.
Qed.

(** Either [run] throws before anything else happens, or the arguments
    name a stored request. *)
Lemma run_cases Date_now parse context args :
  (exists e, run Date_now parse context args = throw e)
  \/ (exists id name request,
         arg0 args = Some id /\ id <> "" /\
         arg1 args = Some name /\ name <> "" /\
         request_getById context id = Some request).
Proof.
  unfold run. cbn [reqId cookieName parseOptions].
  destruct (arg0 args) as [[|a id]|] eqn:E0; [left; eauto| |left; eauto].
  destruct (arg1 args) as [[|b name]|] eqn:E1; [left; eauto| |left; eauto].
  destruct (request_getById context (String a id)) as [request|] eqn:Er;
    [|left; eauto].
  right. exists (String a id), (String b name), request.
  repeat split; congruence.
Qed.

Lemma obtainResponse_no_resend Date_now context request options st :
  (checkShouldResend Date_now
     (response_getLatestForRequestId context (_id request)
        (getEnvironmentId context)) options
   && is_send (renderPurpose context))%bool = false ->
  obtainResponse Date_now context request options st
  = (Js.Normal (response_getLatestForRequestId context (_id request)
                  (getEnvironmentId context)), st).
Proof.
  intros H. unfold obtainResponse. fold (is_send (renderPurpose context)).
  rewrite H. reflexivity.
Qed.

Lemma run_no_resend Date_now parse context args st id name request :
  arg0 args = Some id -> id <> "" ->
  arg1 args = Some name -> name <> "" ->
  request_getById context id = Some request ->
  (checkShouldResend Date_now
     (response_getLatestForRequestId context (_id request)
        (getEnvironmentId context)) (parseOptions args)
   && is_send (renderPurpose context))%bool = false ->
  run Date_now parse context args st
  = extractCookie parse name
      (response_getLatestForRequestId context (_id request)
         (getEnvironmentId context)) st.
Proof.
  intros H0 Hn0 H1 Hn1 Hr Hb.
  rewrite (run_resolved _ _ _ _ _ _ _ H0 Hn0 H1 Hn1 Hr).
  unfold bind. rewrite (obtainResponse_no_resend _ _ _ _ _ Hb). reflexivity.
Qed.

(** C1.  When the dependent request's id is already in the chain held by
    the side-channel store, the guard completes normally with no response
    (it throws nothing), the transport is not invoked, and [run] goes on to
    validate and extract from the last response already known (possibly
    none), exactly as if no re-execution had been asked for. *)
Theorem cycle_guard_skips_reexecution :
  forall Date_now parse context args st id name request r,
    arg0 args = Some id -> id <> "" ->
    arg1 args = Some name -> name <> "" ->
    request_getById context id = Some request ->
    getExtraInfo context "requestChain" = Some r ->
    In (_id request) (heap_get (heap st) r) ->
    let known :=
      response_getLatestForRequestId context (_id request)
        (getEnvironmentId context) in
    fst (resendRequest context request st) = Js.Normal None
    /\ sent (snd (resendRequest context request st)) = sent st
    /\ (exists st',
           obtainResponse Date_now context request (parseOptions args) st
           = (Js.Normal known, st')
           /\ heap st' = heap st /\ sent st' = sent st
           /\ run Date_now parse context args st
              = extractCookie parse name known st')
    /\ sent (snd (run Date_now parse context args st)) = sent st
    /\ heap (snd (run Date_now parse context args st)) = heap st.
Proof.
  intros Date_now parse context args st id name request r
         H0 Hn0 H1 Hn1 Hreq Hr Hin known.
  pose proof (resendRequest_cycle _ _ _ _ Hr Hin) as Hcycle.
  assert (Hob : exists st',
             obtainResponse Date_now context request (parseOptions args) st
             = (Js.Normal known, st')
             /\ heap st' = heap st /\ sent st' = sent st).
  { unfold obtainResponse. fold known.
    destruct (_ && _)%bool.
    - unfold bind. rewrite Hcycle. eexists. split; [reflexivity|].
      split; reflexivity.
    - exists st. split; [reflexivity|]. split; reflexivity. }
  destruct Hob as [st' [Hob [Hh Hs]]].
  assert (Hrun : run Date_now parse context args st
                 = extractCookie parse name known st').
  { rewrite (run_resolved _ _ _ _ _ _ _ H0 Hn0 H1 Hn1 Hreq).
    unfold bind. rewrite Hob. reflexivity. }
  split; [rewrite Hcycle; reflexivity|].
  split; [rewrite Hcycle; reflexivity|].
  split; [exists st'; repeat split; assumption|].
  rewrite Hrun.
  destruct (extractCookie_frame parse name known st') as [Eh Es].
  split; congruence.
Qed.

(** C4.  The transport is invoked only when the decision is true and the
    render purpose is exactly ["send"]: with any other purpose no call is
    made whatever the decision, with a false decision no call is made
    whatever the purpose, and with another purpose and no stored response
    [run] fails with "No responses for request". *)
Theorem reexecution_needs_decision_and_send :
  forall Date_now parse context args st,
    (renderPurpose context <> Some "send" ->
     sent (snd (run Date_now parse context args st)) = sent st)
    /\ (forall id name request,
           arg0 args = Some id -> id <> "" ->
           arg1 args = Some name -> name <> "" ->
           request_getById context id = Some request ->
           let known :=
             response_getLatestForRequestId context (_id request)
               (getEnvironmentId context) in
           (checkShouldResend Date_now known (parseOptions args) = false ->
            sent (snd (run Date_now parse context args st)) = sent st)
           /\ (renderPurpose context <> Some "send" -> known = None ->
               fails NoResponse (Js.Error "No responses for request")
                 (run Date_now parse context args st))).
Proof.
  intros Date_now parse context args st. split.
  - intros Hp. apply is_send_false in Hp.
    destruct (run_cases Date_now parse context args)
      as [[e He]|[id [name [request [H0 [Hn0 [H1 [Hn1 Hr]]]]]]]].
    + rewrite He. reflexivity.
    + rewrite (run_no_resend _ _ _ _ _ _ _ _ H0 Hn0 H1 Hn1 Hr)
        by (rewrite Hp; apply andb_false_r).
      apply extractCookie_frame.
  - intros id name request H0 Hn0 H1 Hn1 Hr known. split.
    + intros Hd.
      rewrite (run_no_resend _ _ _ _ _ _ _ _ H0 Hn0 H1 Hn1 Hr)
        by (fold known; rewrite Hd; reflexivity).
      apply extractCookie_frame.
    + intros Hp Hk. apply is_send_false in Hp.
      rewrite (run_no_resend _ _ _ _ _ _ _ _ H0 Hn0 H1 Hn1 Hr)
        by (rewrite Hp; apply andb_false_r).
      fold known. rewrite Hk. split; [reflexivity|constructor].
Qed.

(** C5, as the code has it.  When re-execution happens the id is appended
    in place to the array read from the side-channel store, and that same
    array is what the transport receives under [requestChain]: at the moment
    of the call the stored chain object ends with the id, and every other
    array is as before.  Only when the store holds no chain is the id put
    into a freshly allocated array, and then no existing array changes. *)
Theorem resendRequest_appends_in_place :
  forall context request st,
    (forall r,
        getExtraInfo context "requestChain" = Some r ->
        (r < List.length (heap st))%nat ->
        ~ In (_id request) (heap_get (heap st) r) ->
        exists call,
          sent (snd (resendRequest context request st)) = app (sent st) [call]
          /\ sent_request call = request
          /\ sent_extraInfo call = [("requestChain", r)]
          /\ heap_get (sent_heap call) r
             = app (heap_get (heap st) r) [_id request]
          /\ (forall r', r' <> r ->
                 heap_get (sent_heap call) r' = heap_get (heap st) r'))
    /\ (getExtraInfo context "requestChain" = None ->
        exists call,
          sent (snd (resendRequest context request st)) = app (sent st) [call]
          /\ sent_request call = request
          /\ sent_extraInfo call = [("requestChain", List.length (heap st))]
          /\ heap_get (sent_heap call) (List.length (heap st)) = [_id request]
          /\ (forall r', (r' < List.length (heap st))%nat ->
                 heap_get (sent_heap call) r' = heap_get (heap st) r')).
Proof.
  intros context request st. split.
  - intros r Hr Hlt Hin.
    rewrite (resendRequest_stored _ _ _ _ Hr Hin).
    unfold sendRequest, push, log. cbn [heap console sent snd].
    destruct (network_sendRequest context request _ _) as [response h].
    cbn [snd sent]. eexists. split; [reflexivity|].
    cbn [sent_request sent_extraInfo sent_heap].
    split; [reflexivity|]. split; [reflexivity|].
    split; [apply heap_get_set_same; exact Hlt|].
    intros r' Hne. apply heap_get_set_other. exact Hne.
  - intros Hr.
    rewrite (resendRequest_fresh _ _ _ Hr).
    unfold sendRequest. cbn [heap console sent].
    destruct (network_sendRequest context request _ _) as [response h].
    cbn [snd sent]. eexists. split; [reflexivity|].
    cbn [sent_request sent_extraInfo sent_heap].
    split; [reflexivity|]. split; [reflexivity|].
    split; [apply heap_get_fresh|].
    intros r' Hlt. apply heap_get_old. exact Hlt.
Qed.

(* ================================================================== *)
(** ** Validation of the response *)
(* ================================================================== *)

(** C7.  After the resend step the response is validated in order: no
    response at all gives "No responses for request"; otherwise a response
    with a (non-empty) error gives "Failed to send dependent request ...";
    otherwise a response without status code gives "No successful responses
    for request", whatever its headers are. *)
Theorem response_validation_order :
  forall Date_now parse context args st id name request response st',
    arg0 args = Some id -> id <> "" ->
    arg1 args = Some name -> name <> "" ->
    request_getById context id = Some request ->
    obtainResponse Date_now context request (parseOptions args) st
    = (Js.Normal response, st') ->
    (response = None ->
     fails NoResponse (Js.Error "No responses for request")
       (run Date_now parse context args st))
    /\ (forall r err,
           response = Some r -> error r = Some err -> err <> "" ->
           fails DependencyFailed
             (Js.Error ("Failed to send dependent request " ++ err))
             (run Date_now parse context args st))
    /\ (forall r,
           response = Some r -> Js.truthy_string (error r) = false ->
           statusCode r = None ->
           fails NoSuccessfulResponse
             (Js.Error "No successful responses for request")
             (run Date_now parse context args st)).
Proof.
  intros Date_now parse context args st id name request response st'
         H0 Hn0 H1 Hn1 Hreq Hob.
  rewrite (run_resolved _ _ _ _ _ _ _ H0 Hn0 H1 Hn1 Hreq).
  unfold bind. rewrite Hob.
  split; [|split].
  - intros ->. split; [reflexivity|constructor].
  - intros r err -> He Hne. unfold extractCookie.
    assert (Ht : Js.truthy_string (error r) = true).
    { rewrite He. cbn. apply negb_true_iff, String.eqb_neq. exact Hne. }
    rewrite Ht.
    rewrite He. cbn [Js.string_of_str]. split; [reflexivity|constructor].
  - intros r -> Ht Hs. unfold extractCookie. rewrite Ht, Hs.
    split; [reflexivity|constructor].
Qed.

(* ================================================================== *)
(** ** Selection of the cookie *)
(* ================================================================== *)

(** The callback reads [c.key] of every element, so one absent parse result
    anywhere in the array makes [filter] throw. *)
Lemma filter_throws_on_absent name cookies :
  In None cookies ->
  Js.filter (key_is name) cookies = Js.Throw (Js.TypeError "key").
Proof.
  induction cookies as [|c cookies IH]; intros Hin; [destruct Hin|].
  cbn [Js.filter]. destruct c as [c|]; [|reflexivity].
  destruct Hin as [Hin|Hin]; [discriminate|].
  cbn. rewrite (IH Hin). reflexivity.
Qed.

Lemma filter_all_present name cs :
  Js.filter (key_is name) (List.map Some cs)
  = Js.Normal (List.map Some
                 (List.filter (fun c => Cookie.key c =? name) cs)).
Proof.
  induction cs as [|c cs IH]; [reflexivity|].
  cbn [List.map Js.filter List.filter]. cbn [key_is key_of Js.cbind].
  rewrite IH. cbn [Js.cbind].
  destruct (Cookie.key c =? name); reflexivity.
Qed.

Lemma map_key_all_present cs :
  Js.map key_of (List.map Some cs) = Js.Normal (List.map Cookie.key cs).
Proof.
  induction cs as [|c cs IH]; [reflexivity|].
  cbn [List.map Js.map key_of Js.cbind]. rewrite IH. reflexivity.
Qed.

Lemma filter_head_find {A} (p : A -> bool) l :
  List.find p l = List.hd_error (List.filter p l).
Proof.
  induction l as [|x l IH]; [reflexivity|].
  cbn. destruct (p x); [reflexivity|exact IH].
Qed.

Lemma getCookies_setCookieHeaders parse r :
  getCookies parse r
  = List.map (fun h => parse (Header.value h)) (setCookieHeaders r).
Proof. reflexivity. Qed.

Lemma extractCookie_valid parse name r st :
  passes_validation r ->
  extractCookie parse name (Some r) st
  = (let cookies := getCookies parse r in
     if (List.length cookies =? 0)%nat then
       throw (Js.Error "No cookies set for response")
     else
       matching <- lift (Js.filter (key_is name) cookies) ;;
       match matching with
       | Some cookie :: _ => ret (Cookie.value cookie)
       | _ =>
           keys <- lift (Js.map key_of cookies) ;;
           throw (Js.Error ("No " ++ name
                            ++ " cookie for response. Choices are "
                            ++ Js.join ", " keys ++ "."))
       end) st.
Proof.
  intros [He Hs]. unfold extractCookie. rewrite He, Hs. reflexivity.
Qed.

(** Selection when every [Set-Cookie] value parses: the value of the first
    cookie, in header order, whose key is the requested name; failing that,
    the error that lists every key in header order. *)
Lemma extractCookie_all_parsed parse name r st cs :
  passes_validation r ->
  cs <> [] ->
  getCookies parse r = List.map Some cs ->
  extractCookie parse name (Some r) st
  = match first_match (fun c => Cookie.key c =? name) cs with
    | Some c => (Js.Normal (Cookie.value c), st)
    | None =>
        (Js.Throw
           (Js.Error ("No " ++ name ++ " cookie for response. Choices are "
                      ++ Js.join ", " (List.map Cookie.key cs) ++ ".")), st)
    end.
Proof.
  intros Hv Hne Hcs. rewrite (extractCookie_valid _ _ _ _ Hv).
  cbv zeta. rewrite Hcs.
  assert (Hlen : (List.length (List.map Some cs) =? 0)%nat = false).
  { destruct cs; [congruence|reflexivity]. }
  rewrite Hlen.
  unfold bind, lift. rewrite filter_all_present, map_key_all_present.
  unfold first_match. rewrite filter_head_find.
  destruct (List.filter _ cs) as [|c rest]; reflexivity.
Qed.

Lemma extractCookie_unparsable parse name r st h :
  passes_validation r ->
  In h (setCookieHeaders r) ->
  parse (Header.value h) = None ->
  extractCookie parse name (Some r) st = (Js.Throw (Js.TypeError "key"), st).
Proof.
  intros Hv Hin Hp. rewrite (extractCookie_valid _ _ _ _ Hv).
  cbv zeta.
  assert (Hnone : In None (getCookies parse r)).
  { rewrite getCookies_setCookieHeaders. apply in_map_iff. exists h. auto. }
  destruct (getCookies parse r) as [|c cookies] eqn:E; [destruct Hnone|].
  cbn [List.length Nat.eqb]. unfold bind, lift.
  rewrite (filter_throws_on_absent _ _ Hnone). reflexivity.
Qed.

Lemma TypeError_no_kind k p : ~ Kind k (Js.TypeError p).
Proof. intros H. inversion H. Qed.

Lemma ReferenceError_no_kind k x : ~ Kind k (Js.ReferenceError x).
Proof. intros H. inversion H. Qed.

(** C8, evaluated on the code.  One [Set-Cookie] value that does not parse
    is enough for the selection to throw a TypeError from the callback of
    [filter], whether or not another header carries the requested cookie:
    the value of the first matching cookie is not returned, and no
    "No ... cookie for response" error is raised either. *)
Theorem selection_throws_on_unparsable_header :
  forall Date_now parse context args st id name request r st' h,
    arg0 args = Some id -> id <> "" ->
    arg1 args = Some name -> name <> "" ->
    request_getById context id = Some request ->
    obtainResponse Date_now context request (parseOptions args) st
    = (Js.Normal (Some r), st') ->
    passes_validation r ->
    In h (setCookieHeaders r) ->
    parse (Header.value h) = None ->
    run Date_now parse context args st = (Js.Throw (Js.TypeError "key"), st')
    /\ ~ Kind CookieNotFound (Js.TypeError "key").
Proof.
  intros Date_now parse context args st id name request r st' h
         H0 Hn0 H1 Hn1 Hreq Hob Hv Hin Hp.
  split; [|apply TypeError_no_kind].
  rewrite (run_resolved _ _ _ _ _ _ _ H0 Hn0 H1 Hn1 Hreq).
  unfold bind. rewrite Hob.
  apply (extractCookie_unparsable _ _ _ _ _ Hv Hin Hp).
Qed.

(** C9, evaluated on the code.  When the request store has no request for
    the id, the [throw] statement first evaluates its template literal,
    which reads the undeclared identifier [reqId]: what surfaces is a
    ReferenceError whose message is the same whatever the id is, not the
    "Could not find request ..." error. *)
Theorem missing_request_throws_ReferenceError :
  forall Date_now parse context args st id name,
    arg0 args = Some id -> id <> "" ->
    arg1 args = Some name -> name <> "" ->
    request_getById context id = None ->
    run Date_now parse context args st = (Js.Throw (Js.ReferenceError "reqId"), st)
    /\ message (Js.ReferenceError "reqId") = "reqId is not defined"
    /\ ~ Kind RequestNotFound (Js.ReferenceError "reqId").
Proof.
  intros Date_now parse context args st id name H0 Hn0 H1 Hn1 Hreq.
  split; [|split; [reflexivity|apply ReferenceError_no_kind]].
  unfold run. cbn [reqId cookieName parseOptions].
  rewrite H0. destruct id as [|a id']; [congruence|].
  rewrite H1. destruct name as [|b name']; [congruence|].
  rewrite Hreq. reflexivity.
Qed.

(** C10.  When the response passes validation, has at least one
    [Set-Cookie] header, and none of their values parses, the array of parse
    results is as long as the list of those headers, so the "No cookies set
    for response" check does not fire; the key comparison then reads [key]
    of an absent cookie and [run] ends with a TypeError, which is none of
    the seven failures of the specification. *)
Theorem unparsable_cookies_throw_TypeError :
  forall Date_now parse context args st id name request r st',
    arg0 args = Some id -> id <> "" ->
    arg1 args = Some name -> name <> "" ->
    request_getById context id = Some request ->
    obtainResponse Date_now context request (parseOptions args) st
    = (Js.Normal (Some r), st') ->
    passes_validation r ->
    setCookieHeaders r <> [] ->
    (forall h, In h (setCookieHeaders r) -> parse (Header.value h) = None) ->
    List.length (getCookies parse r) = List.length (setCookieHeaders r)
    /\ List.length (getCookies parse r) <> 0%nat
    /\ run Date_now parse context args st = (Js.Throw (Js.TypeError "key"), st')
    /\ fst (run Date_now parse context args st)
       <> Js.Throw (Js.Error "No cookies set for response")
    /\ (forall k, ~ Kind k (Js.TypeError "key")).
Proof.
  intros Date_now parse context args st id name request r st'
         H0 Hn0 H1 Hn1 Hreq Hob Hv Hne Hall.
  assert (Hlen : List.length (getCookies parse r)
                 = List.length (setCookieHeaders r)).
  { rewrite getCookies_setCookieHeaders. apply length_map. }
  assert (Hrun : run Date_now parse context args st
                 = (Js.Throw (Js.TypeError "key"), st')).
  { rewrite (run_resolved _ _ _ _ _ _ _ H0 Hn0 H1 Hn1 Hreq).
    unfold bind. rewrite Hob.
    destruct (setCookieHeaders r) as [|h hs] eqn:E; [congruence|].
    apply (extractCookie_unparsable _ _ _ _ h Hv).
    - rewrite E. left. reflexivity.
    - apply Hall. left. reflexivity. }
  split; [exact Hlen|].
  split.
  { rewrite Hlen. destruct (setCookieHeaders r); [congruence|discriminate]. }
  split; [exact Hrun|].
  split; [rewrite Hrun; discriminate|].
  intros k. apply TypeError_no_kind.
Qed.

(* ================================================================== *)
(** ** Comparison of binary64 values and the order of the numbers *)
(* ================================================================== *)

Section Binary64.

Local Open Scope Z_scope.

Lemma digits2_pos_bounds m :
2 ^ (Zpos (digits2_pos m) - 1) <= Zpos m < 2 ^ Zpos (digits2_pos m).
Proof.
induction m as [m IH|m IH|]; cbn [digits2_pos].
- rewrite Pos2Z.inj_succ.
  replace (Z.succ (Zpos (digits2_pos m)) - 1) with (Z.succ (Zpos (digits2_pos m) - 1)) by lia.
  rewrite !Z.pow_succ_r by lia. lia.
- rewrite Pos2Z.inj_succ.
  replace (Z.succ (Zpos (digits2_pos m)) - 1) with (Z.succ (Zpos (digits2_pos m) - 1)) by lia.
  rewrite !Z.pow_succ_r by lia. lia.
- cbn. lia.
Qed.

Lemma bounded_canonical m e :
bounded Js.prec Js.emax m e = true ->
-1074 <= e /\ Zpos (digits2_pos m) <= 53
/\ (-1074 < e -> Zpos (digits2_pos m) = 53).
Proof.
unfold bounded, canonical_mantissa, fexp, emin, Js.prec, Js.emax.
intros H. apply andb_true_iff in H. destruct H as [H _].
apply Z.eqb_eq in H. lia.
Qed.

Lemma scaled_lt m1 e1 m2 e2 :
bounded Js.prec Js.emax m1 e1 = true ->
bounded Js.prec Js.emax m2 e2 = true ->
e1 < e2 ->
Zpos m1 * 2 ^ (e1 + 1074) < Zpos m2 * 2 ^ (e2 + 1074).
Proof.
intros H1 H2 Hlt.
apply bounded_canonical in H1, H2.
destruct H1 as [Hmin1 [Hd1 _]]. destruct H2 as [_ [_ Hd2]].
specialize (Hd2 ltac:(lia)).
pose proof (digits2_pos_bounds m1) as [_ Hm1].
pose proof (digits2_pos_bounds m2) as [Hm2 _].
rewrite Hd2 in Hm2.
assert (Hp1 : 2 ^ Zpos (digits2_pos m1) <= 2 ^ 53)
  by (apply Z.pow_le_mono_r; lia).
assert (Hk : 0 < 2 ^ (e1 + 1074)) by (apply Z.pow_pos_nonneg; lia).
replace (e2 + 1074) with ((e1 + 1074) + (e2 - e1)) by lia.
rewrite (Z.pow_add_r 2 (e1 + 1074) (e2 - e1)) by lia.
assert (Hq : 2 ^ 1 <= 2 ^ (e2 - e1)) by (apply Z.pow_le_mono_r; lia).
change (2 ^ 1) with 2 in Hq. change (53 - 1) with 52 in Hm2.
assert (E53 : 2 ^ 53 = 2 * 2 ^ 52) by reflexivity.
assert (Hm : Zpos m1 < 2 * Zpos m2) by lia.
clear - Hm Hk Hq.
generalize dependent (2 ^ (e1 + 1074)). generalize dependent (2 ^ (e2 - e1)).
intros P HP K HK.
apply Z.lt_le_trans with (2 * Zpos m2 * K); [nia|].
replace (Zpos m2 * (K * P)) with (P * (Zpos m2 * K)) by ring.
replace (2 * Zpos m2 * K) with (2 * (Zpos m2 * K)) by ring.
apply Z.mul_le_mono_nonneg_r; [nia|exact HP].
Qed.

Lemma scaled_compare m1 e1 m2 e2 :
bounded Js.prec Js.emax m1 e1 = true ->
bounded Js.prec Js.emax m2 e2 = true ->
(Zpos m1 * 2 ^ (e1 + 1074) ?= Zpos m2 * 2 ^ (e2 + 1074))
= match e1 ?= e2 with
  | Lt => Lt
  | Gt => Gt
  | Eq => Pos.compare_cont Eq m1 m2
  end.
Proof.
intros H1 H2.
destruct (Z.compare_spec e1 e2) as [E|L|G].
- subst e2. change (Pos.compare_cont Eq m1 m2) with (Pos.compare m1 m2).
  assert (Hk : 0 < 2 ^ (e1 + 1074)).
  { apply Z.pow_pos_nonneg; [lia|]. apply bounded_canonical in H1. lia. }
  rewrite Pos2Z.inj_compare.
  destruct (Z.compare_spec (Zpos m1) (Zpos m2)) as [E'|L'|G'].
  + rewrite E'. apply Z.compare_refl.
  + apply Z.compare_lt_iff. nia.
  + apply Z.compare_gt_iff. nia.
- apply Z.compare_lt_iff. apply scaled_lt; assumption.
- apply Z.compare_gt_iff. apply scaled_lt; assumption.
Qed.

Lemma SFcompare_fixed x y :
is_binary64 x = true -> is_binary64 y = true ->
is_real x = true -> is_real y = true ->
SFcompare x y = Some (fixed x ?= fixed y).
Proof.
intros Vx Vy Rx Ry.
destruct x as [sx|sx| |sx mx ex]; try discriminate;
destruct y as [sy|sy| |sy my ey]; try discriminate;
cbn [SFcompare fixed].
- reflexivity.
- assert (0 < Zpos my * 2 ^ (ey + 1074)).
  { apply bounded_canonical in Vy. apply Z.mul_pos_pos; [lia|].
    apply Z.pow_pos_nonneg; lia. }
  destruct sy; cbn [cond_Zopp]; f_equal; symmetry.
  + apply Z.compare_gt_iff. lia.
  + apply Z.compare_lt_iff. lia.
- assert (0 < Zpos mx * 2 ^ (ex + 1074)).
  { apply bounded_canonical in Vx. apply Z.mul_pos_pos; [lia|].
    apply Z.pow_pos_nonneg; lia. }
  destruct sx; cbn [cond_Zopp]; f_equal; symmetry.
  + apply Z.compare_lt_iff. lia.
  + apply Z.compare_gt_iff. lia.
- cbn [is_binary64 valid_binary] in Vx, Vy. unfold is_binary64 in Vx, Vy. cbn [valid_binary] in Vx, Vy.
  assert (Hx : 0 < Zpos mx * 2 ^ (ex + 1074)).
  { apply bounded_canonical in Vx. apply Z.mul_pos_pos; [lia|].
    apply Z.pow_pos_nonneg; lia. }
  assert (Hy : 0 < Zpos my * 2 ^ (ey + 1074)).
  { apply bounded_canonical in Vy. apply Z.mul_pos_pos; [lia|].
    apply Z.pow_pos_nonneg; lia. }
  pose proof (scaled_compare _ _ _ _ Vx Vy) as Hc.
  destruct sx, sy; cbn [cond_Zopp]; f_equal.
  + rewrite Z.compare_opp.
    rewrite (Z.compare_antisym (Zpos mx * 2 ^ (ex + 1074))), Hc.
    destruct (ex ?= ey); reflexivity.
  + symmetry. apply Z.compare_lt_iff. lia.
  + symmetry. apply Z.compare_gt_iff. lia.
  + rewrite Hc. reflexivity.
Qed.

Lemma two_pow_pos e : (0 < 2 ^ e)%Q.
Proof. apply Qpower_0_lt. reflexivity. Qed.

Lemma value_fixed x a :
is_binary64 x = true -> value x = Some a ->
(a == inject_Z (fixed x) * 2 ^ (-1074))%Q.
Proof.
intros V Ha.
destruct x as [sx|sx| |sx mx ex]; try discriminate; cbn in Ha;
  injection Ha as <-.
- cbn [fixed]. rewrite Qmult_0_l. reflexivity.
- unfold is_binary64 in V. cbn [valid_binary] in V.
  apply bounded_canonical in V. destruct V as [Hmin _].
  cbn [fixed].
  assert (E : cond_Zopp sx (Zpos mx * 2 ^ (ex + 1074))
              = cond_Zopp sx (Zpos mx) * 2 ^ (ex + 1074)).
  { destruct sx; cbn [cond_Zopp]; ring. }
  rewrite E, inject_Z_mult.
  rewrite Zpower_Qpower by lia.
  rewrite <- Qmult_assoc.
  rewrite <- Qpower_plus by discriminate.
  replace (ex + 1074 + -1074) with ex by lia.
  reflexivity.
Qed.

Lemma value_is_real x a : value x = Some a -> is_real x = true.
Proof. destruct x; try discriminate; reflexivity. Qed.

Lemma gt_value x y a b :
is_binary64 x = true -> is_binary64 y = true ->
value x = Some a -> value y = Some b ->
Js.gt x y = true <-> (b < a)%Q.
Proof.
intros Vx Vy Ha Hb.
unfold Js.gt, SFltb.
rewrite (SFcompare_fixed y x Vy Vx (value_is_real _ _ Hb) (value_is_real _ _ Ha)).
rewrite (value_fixed _ _ Vx Ha), (value_fixed _ _ Vy Hb).
rewrite (Qmult_lt_r _ _ _ (two_pow_pos (-1074))).
rewrite <- Zlt_Qlt.
destruct (Z.compare_spec (fixed y) (fixed x)); split; intros; try lia; try discriminate; reflexivity.
Qed.

Lemma SFcompare_Eq_sym x y :
SFcompare x y = Some Eq -> SFcompare y x = Some Eq.
Proof.
destruct x as [sx|sx| |sx mx ex], y as [sy|sy| |sy my ey];
  cbn [SFcompare]; try discriminate; try reflexivity;
  try (destruct sx; discriminate); try (destruct sy; discriminate).
- destruct sx, sy; try discriminate; reflexivity.
- destruct sx, sy; try discriminate; intros H; injection H as H.
  + destruct (Z.compare_spec ex ey) as [E|L|G]; try discriminate.
    subst ey. rewrite Z.compare_refl.
    destruct (Pos.compare_cont Eq mx my) eqn:C; try discriminate.
    apply Pcompare_Eq_eq in C. subst my. rewrite Pcompare_refl. reflexivity.
  + destruct (Z.compare_spec ex ey) as [E|L|G]; try discriminate.
    subst ey. rewrite Z.compare_refl.
    apply Pcompare_Eq_eq in H. subst my. rewrite Pcompare_refl. reflexivity.
Qed.

Lemma num_eq_not_gt x y : Js.num_eq x y = true -> Js.gt x y = false.
Proof.
unfold Js.num_eq, Js.gt, SFeqb, SFltb. intros H.
destruct (SFcompare x y) as [[]|] eqn:E; try discriminate.
rewrite (SFcompare_Eq_sym _ _ E). reflexivity.
Qed.

(** *** Every result of [-] and [/] is a binary64 value

    The rounding of [SpecFloat] returns a canonical mantissa and exponent as
    soon as its input has at least as many digits as the format asks for;
    subtraction and division provide such an input. *)

Lemma fexp64_eq e : fexp Js.prec Js.emax e = fexp64 e.
Proof. reflexivity. Qed.

Lemma Zdigits2_bounds m :
  0 < m -> 2 ^ (Zdigits2 m - 1) <= m < 2 ^ Zdigits2 m.
Proof.
  destruct m as [|p|p]; try lia. intros _. apply digits2_pos_bounds.
Qed.

Lemma Zdigits2_pos m : 0 < m -> 0 < Zdigits2 m.
Proof. destruct m; cbn; lia. Qed.

Lemma Zdigits2_unique m d :
  0 < d -> 2 ^ (d - 1) <= m < 2 ^ d -> Zdigits2 m = d.
Proof.
  intros Hd [Hl Hu].
  assert (Hm : 0 < m).
  { assert (0 < 2 ^ (d - 1)) by (apply Z.pow_pos_nonneg; lia). lia. }
  pose proof (Zdigits2_bounds m Hm) as [Hl' Hu'].
  pose proof (Zdigits2_pos m Hm) as Hp.
  destruct (Z.lt_trichotomy (Zdigits2 m) d) as [L|[E|G]]; [|exact E|].
  - assert (2 ^ Zdigits2 m <= 2 ^ (d - 1)) by (apply Z.pow_le_mono_r; lia). lia.
  - assert (2 ^ d <= 2 ^ (Zdigits2 m - 1)) by (apply Z.pow_le_mono_r; lia). lia.
Qed.

Lemma shr_1_m r :
  0 <= shr_m r -> shr_m (shr_1 r) = shr_m r / 2.
Proof.
  destruct r as [m rb sb]. cbn [shr_m shr_1].
  destruct m as [|[p|p|]|p]; intros H; cbn [shr_m]; try lia.
  all: try reflexivity.
  - rewrite Pos2Z.inj_xI. apply Z.div_unique with 1; lia.
  - rewrite Pos2Z.inj_xO. apply Z.div_unique with 0; lia.
Qed.

Lemma iter_shr_1_m p : forall r,
  0 <= shr_m r -> shr_m (SpecFloat.iter_pos shr_1 p r) = shr_m r / 2 ^ Zpos p.
Proof.
  induction p as [p IH|p IH|]; intros r Hr; cbn [SpecFloat.iter_pos].
  - assert (H1 : 0 <= shr_m (shr_1 r)).
    { rewrite shr_1_m by exact Hr. apply Z.div_pos; lia. }
    assert (H2 : 0 <= shr_m (SpecFloat.iter_pos shr_1 p (shr_1 r))).
    { rewrite IH by exact H1. apply Z.div_pos; [lia|]. apply Z.pow_pos_nonneg; lia. }
    rewrite IH by exact H2. rewrite IH by exact H1. rewrite shr_1_m by exact Hr.
    rewrite !Z.div_div by (try apply Z.pow_pos_nonneg; lia).
    f_equal. rewrite (Pos2Z.inj_xI p).
    replace (2 * Zpos p + 1) with (1 + Zpos p + Zpos p) by lia.
    rewrite !Z.pow_add_r by lia. change (2 ^ 1) with 2. ring.
  - assert (H2 : 0 <= shr_m (SpecFloat.iter_pos shr_1 p r)).
    { rewrite IH by exact Hr. apply Z.div_pos; [lia|]. apply Z.pow_pos_nonneg; lia. }
    rewrite IH by exact H2. rewrite IH by exact Hr.
    rewrite !Z.div_div by (try apply Z.pow_pos_nonneg; lia).
    f_equal. rewrite (Pos2Z.inj_xO p).
    replace (2 * Zpos p) with (Zpos p + Zpos p) by lia.
    rewrite !Z.pow_add_r by lia. ring.
  - rewrite shr_1_m by exact Hr. reflexivity.
Qed.

(** The mantissa and exponent after [shr]. *)
Lemma shr_m_e r e n :
  0 <= shr_m r ->
  shr_m (fst (shr r e n)) = shr_m r / 2 ^ Z.max 0 n
  /\ snd (shr r e n) = e + Z.max 0 n.
Proof.
  intros Hr. destruct n as [|p|p]; cbn [shr fst snd].
  - rewrite Z.div_1_r. lia.
  - rewrite iter_shr_1_m by exact Hr. replace (Z.max 0 (Zpos p)) with (Zpos p) by lia. lia.
  - replace (Z.max 0 (Zneg p)) with 0 by lia. rewrite Z.div_1_r. lia.
Qed.

Lemma shr_record_of_loc_m m l : shr_m (shr_record_of_loc m l) = m.
Proof. destruct l as [|[]]; reflexivity. Qed.

Lemma digits_div_pow2 m n :
  0 < m -> 0 <= n ->
  (m / 2 ^ n = 0 /\ Zdigits2 m <= n)
  \/ (0 < m / 2 ^ n /\ Zdigits2 (m / 2 ^ n) = Zdigits2 m - n).
Proof.
  intros Hm Hn.
  pose proof (Zdigits2_bounds m Hm) as [Hl Hu].
  pose proof (Zdigits2_pos m Hm) as Hp.
  assert (H2n : 0 < 2 ^ n) by (apply Z.pow_pos_nonneg; lia).
  destruct (Z_lt_le_dec n (Zdigits2 m)) as [L|G].
  - right.
    assert (Hlow : 2 ^ (Zdigits2 m - n - 1) <= m / 2 ^ n).
    { apply Z.div_le_lower_bound; [lia|].
      rewrite <- Z.pow_add_r by lia.
      replace (n + (Zdigits2 m - n - 1)) with (Zdigits2 m - 1) by lia. exact Hl. }
    assert (Hup : m / 2 ^ n < 2 ^ (Zdigits2 m - n)).
    { apply Z.div_lt_upper_bound; [lia|].
      rewrite <- Z.pow_add_r by lia.
      replace (n + (Zdigits2 m - n)) with (Zdigits2 m) by lia. exact Hu. }
    assert (0 < 2 ^ (Zdigits2 m - n - 1)) by (apply Z.pow_pos_nonneg; lia).
    split; [lia|].
    apply Zdigits2_unique; [lia|]. split; assumption.
  - left. split; [|lia].
    apply Z.div_small. split; [lia|].
    assert (2 ^ Zdigits2 m <= 2 ^ n) by (apply Z.pow_le_mono_r; lia). lia.
Qed.

Lemma round_nearest_even_cases m l :
  round_nearest_even m l = m \/ round_nearest_even m l = m + 1.
Proof.
  destruct l as [|[]]; cbn; auto. destruct (Z.even m); auto.
Qed.

Lemma fexp64_mono a b : a <= b -> fexp64 a <= fexp64 b.
Proof. unfold fexp64. lia. Qed.

Lemma Zdigits2_nonneg m : 0 <= Zdigits2 m.
Proof. destruct m; cbn; lia. Qed.

Lemma Zdigits2_lower m k : 0 <= k -> 2 ^ k <= m -> k < Zdigits2 m.
Proof.
  intros Hk H.
  assert (Hm : 0 < m).
  { assert (0 < 2 ^ k) by (apply Z.pow_pos_nonneg; lia). lia. }
  pose proof (Zdigits2_bounds m Hm) as [_ Hu].
  pose proof (Zdigits2_pos m Hm).
  destruct (Z_lt_le_dec k (Zdigits2 m)) as [L|G]; [exact L|].
  assert (2 ^ Zdigits2 m <= 2 ^ k) by (apply Z.pow_le_mono_r; lia). lia.
Qed.

Lemma Zdigits2_mono a b : 0 < a -> a <= b -> Zdigits2 a <= Zdigits2 b.
Proof.
  intros Ha Hab.
  pose proof (Zdigits2_bounds a Ha) as [Hl _].
  pose proof (Zdigits2_pos a Ha).
  assert (Zdigits2 a - 1 < Zdigits2 b) by (apply Zdigits2_lower; lia).
  lia.
Qed.

Lemma shr_fexp_spec m e l :
  0 <= m -> e <= fexp64 (Zdigits2 m + e) ->
  snd (shr_fexp Js.prec Js.emax m e l) = fexp64 (Zdigits2 m + e)
  /\ shr_m (fst (shr_fexp Js.prec Js.emax m e l))
     = m / 2 ^ (fexp64 (Zdigits2 m + e) - e).
Proof.
  intros Hm He. unfold shr_fexp. rewrite fexp64_eq.
  destruct (shr_m_e (shr_record_of_loc m l) e (fexp64 (Zdigits2 m + e) - e))
    as [H1 H2].
  { rewrite shr_record_of_loc_m. exact Hm. }
  rewrite H1, H2, shr_record_of_loc_m.
  replace (Z.max 0 (fexp64 (Zdigits2 m + e) - e))
    with (fexp64 (Zdigits2 m + e) - e) by lia.
  split; [lia|reflexivity].
Qed.

(** After the shift, a non-zero mantissa is canonical. *)
Lemma shr_fexp_canonical m e l :
  0 <= m -> e <= fexp64 (Zdigits2 m + e) ->
  0 < shr_m (fst (shr_fexp Js.prec Js.emax m e l)) ->
  fexp64 (Zdigits2 (shr_m (fst (shr_fexp Js.prec Js.emax m e l)))
          + snd (shr_fexp Js.prec Js.emax m e l))
  = snd (shr_fexp Js.prec Js.emax m e l).
Proof.
  intros Hm He.
  destruct (shr_fexp_spec m e l Hm He) as [H2 H1]. rewrite H1, H2.
  intros Hpos.
  assert (Hm' : 0 < m).
  { destruct (Z.eq_dec m 0) as [->|]; [|lia]. rewrite Z.div_0_l in Hpos; [lia|].
    apply Z.pow_nonzero; lia. }
  destruct (digits_div_pow2 m (fexp64 (Zdigits2 m + e) - e) Hm' ltac:(lia))
    as [[H0 _]|[_ Hd]]; [lia|].
  rewrite Hd. f_equal. lia.
Qed.

(** When the shift leaves nothing, the exponent is the least one. *)
Lemma shr_fexp_zero m e l :
  0 <= m -> e <= fexp64 (Zdigits2 m + e) ->
  shr_m (fst (shr_fexp Js.prec Js.emax m e l)) = 0 ->
  snd (shr_fexp Js.prec Js.emax m e l) = -1074.
Proof.
  intros Hm He.
  destruct (shr_fexp_spec m e l Hm He) as [H2 H1]. rewrite H1, H2.
  intros Hz.
  destruct (Z.eq_dec m 0) as [->|Hne].
  - cbn [Zdigits2] in *. unfold fexp64 in *. lia.
  - destruct (digits_div_pow2 m (fexp64 (Zdigits2 m + e) - e) ltac:(lia) ltac:(lia))
      as [[_ Hd]|[Hp _]]; [|lia].
    unfold fexp64 in *. lia.
Qed.

Lemma binary_round_aux_valid sx mx ex lx :
  0 <= mx -> ex <= fexp64 (Zdigits2 mx + ex) ->
  valid_binary Js.prec Js.emax (binary_round_aux Js.prec Js.emax sx mx ex lx) = true.
Proof.
  intros Hm He. unfold binary_round_aux.
  pose proof (shr_fexp_spec mx ex lx Hm He) as [S2 S1].
  pose proof (shr_fexp_canonical mx ex lx Hm He) as Sc.
  pose proof (shr_fexp_zero mx ex lx Hm He) as Sz.
  destruct (shr_fexp Js.prec Js.emax mx ex lx) as [mrs' e'].
  cbn [fst snd] in *.
  assert (Hm1 : 0 <= shr_m mrs').
  { rewrite S1. apply Z.div_pos; [lia|]. apply Z.pow_pos_nonneg; lia. }
  set (m2 := round_nearest_even (shr_m mrs') (loc_of_shr_record mrs')).
  assert (Hm2 : m2 = shr_m mrs' \/ m2 = shr_m mrs' + 1)
    by apply round_nearest_even_cases.
  assert (Hm2' : 0 <= m2) by lia.
  assert (He2 : m2 = 0 \/ e' <= fexp64 (Zdigits2 m2 + e')).
  { destruct (Z.eq_dec (shr_m mrs') 0) as [Hz|Hnz].
    - specialize (Sz Hz). destruct Hm2 as [E2 | E2]; [left; lia|].
      right. rewrite E2, Hz. cbn [Z.add Zdigits2 digits2_pos]. rewrite Sz. reflexivity.
    - right. specialize (Sc ltac:(lia)).
      rewrite <- Sc at 1. apply fexp64_mono.
      assert (Zdigits2 (shr_m mrs') <= Zdigits2 m2)
        by (apply Zdigits2_mono; lia).
      lia. }
  destruct He2 as [Hz|He2].
  - rewrite Hz. unfold shr_fexp. cbn [Zdigits2 shr_record_of_loc].
    destruct (shr {| shr_m := 0; shr_r := false; shr_s := false |} e'
                (fexp Js.prec Js.emax (0 + e') - e')) as [mrs'' e''] eqn:E.
    pose proof (shr_m_e {| shr_m := 0; shr_r := false; shr_s := false |} e'
                  (fexp Js.prec Js.emax (0 + e') - e') ltac:(cbn; lia)) as [H1 _].
    rewrite E in H1. cbn [fst shr_m] in H1. rewrite Z.div_0_l in H1
      by (apply Z.pow_nonzero; lia).
    rewrite H1. reflexivity.
  - pose proof (shr_fexp_spec m2 e' loc_Exact Hm2' He2) as [T2 T1].
    pose proof (shr_fexp_canonical m2 e' loc_Exact Hm2' He2) as Tc.
    destruct (shr_fexp Js.prec Js.emax m2 e' loc_Exact) as [mrs'' e''].
    cbn [fst snd] in *.
    destruct (shr_m mrs'') as [|m|m] eqn:Em; [reflexivity| |reflexivity].
    destruct (e'' <=? Js.emax - Js.prec) eqn:L; [|reflexivity].
    cbn [valid_binary]. unfold bounded, canonical_mantissa.
    rewrite L, andb_true_r. apply Z.eqb_eq. rewrite fexp64_eq.
    apply (Tc ltac:(lia)).
Qed.

Lemma iter_xO m d : Zpos (Pos.iter xO m d) = Zpos m * 2 ^ Zpos d.
Proof.
  revert m. induction d as [d IH|d IH|]; intros m; cbn [Pos.iter].
  - rewrite Pos2Z.inj_xO, !IH, (Pos2Z.inj_xI d).
    replace (2 * Zpos d + 1) with (1 + Zpos d + Zpos d) by lia.
    rewrite !Z.pow_add_r by lia. change (2 ^ 1) with 2. ring.
  - rewrite !IH, (Pos2Z.inj_xO d).
    replace (2 * Zpos d) with (Zpos d + Zpos d) by lia.
    rewrite !Z.pow_add_r by lia. ring.
  - rewrite Pos2Z.inj_xO. change (2 ^ 1) with 2. ring.
Qed.

Lemma digits_mul_pow2 m k :
  0 < m -> 0 <= k -> Zdigits2 (m * 2 ^ k) = Zdigits2 m + k.
Proof.
  intros Hm Hk.
  pose proof (Zdigits2_bounds m Hm) as [Hl Hu].
  pose proof (Zdigits2_pos m Hm).
  assert (0 < 2 ^ k) by (apply Z.pow_pos_nonneg; lia).
  apply Zdigits2_unique; [lia|].
  replace (Zdigits2 m + k - 1) with (Zdigits2 m - 1 + k) by lia.
  rewrite !Z.pow_add_r by lia. nia.
Qed.

Lemma binary_round_valid sx mx ex :
  valid_binary Js.prec Js.emax (binary_round Js.prec Js.emax sx mx ex) = true.
Proof.
  unfold binary_round, shl_align. rewrite fexp64_eq.
  destruct (fexp64 (Zpos (digits2_pos mx) + ex) - ex) as [|d|d] eqn:E.
  - apply binary_round_aux_valid; [lia|]. cbn [Zdigits2]. lia.
  - apply binary_round_aux_valid; [lia|]. cbn [Zdigits2]. lia.
  - apply binary_round_aux_valid; [lia|].
    rewrite iter_xO, digits_mul_pow2 by lia. cbn [Zdigits2].
    replace (Zpos (digits2_pos mx) + Zpos d + fexp64 (Zpos (digits2_pos mx) + ex))
      with (Zpos (digits2_pos mx) + ex) by lia.
    lia.
Qed.

Lemma binary_normalize_valid m e s :
  valid_binary Js.prec Js.emax (binary_normalize Js.prec Js.emax m e s) = true.
Proof.
  destruct m; cbn [binary_normalize]; [reflexivity| |]; apply binary_round_valid.
Qed.

Lemma sub_is_binary64 x y :
  is_binary64 x = true -> is_binary64 y = true -> is_binary64 (Js.sub x y) = true.
Proof.
  unfold is_binary64, Js.sub. intros Vx Vy.
  destruct x as [sx|sx| |sx mx ex], y as [sy|sy| |sy my ey];
    cbn [SFsub]; try reflexivity; try exact Vx; try exact Vy.
  - destruct sx, sy; reflexivity.
  - destruct sx, sy; reflexivity.
  - apply binary_normalize_valid.
Qed.

Lemma div_core_precondition m1 e1 m2 e2 :
  0 < m1 -> 0 < m2 ->
  let '(q, e', _) := SFdiv_core_binary Js.prec Js.emax m1 e1 m2 e2 in
  0 <= q /\ e' <= fexp64 (Zdigits2 q + e').
Proof.
  intros H1 H2. unfold SFdiv_core_binary. rewrite fexp64_eq.
  set (d1 := Zdigits2 m1). set (d2 := Zdigits2 m2).
  set (e' := Z.min (fexp64 (d1 + e1 - (d2 + e2))) (e1 - e2)).
  set (s := e1 - e2 - e').
  assert (Hs : 0 <= s) by (unfold s, e'; lia).
  set (m' := match s with Zpos _ => Z.shiftl m1 s | Z0 => m1 | Zneg _ => 0 end).
  assert (Hm' : m' = m1 * 2 ^ s).
  { unfold m'. destruct s as [|p|p] eqn:Es; [cbn; lia| |lia].
    apply Z.shiftl_mul_pow2. lia. }
  pose proof (Z_div_mod m' m2 ltac:(lia)) as Hdm.
  destruct (Z.div_eucl m' m2) as [q r]. destruct Hdm as [Hq Hr].
  assert (Hpow : 0 < 2 ^ s) by (apply Z.pow_pos_nonneg; lia).
  assert (Hq0 : 0 <= q) by nia.
  split; [exact Hq0|].
  apply Z.le_trans with (fexp64 (d1 + e1 - (d2 + e2))); [unfold e'; lia|].
  apply fexp64_mono.
  assert (Hd : d1 + s - d2 <= Zdigits2 q).
  { destruct (Z_lt_le_dec 0 (d1 + s - d2)) as [L|G];
      [|pose proof (Zdigits2_nonneg q); lia].
    pose proof (Zdigits2_bounds m1 H1) as [Hl1 _].
    pose proof (Zdigits2_bounds m2 H2) as [_ Hu2].
    fold d1 in Hl1. fold d2 in Hu2.
    assert (Hd2 : 0 < d2) by (apply Zdigits2_pos; exact H2).
    assert (Hd1 : 0 < d1) by (apply Zdigits2_pos; exact H1).
    assert (Hlow : 2 ^ (d1 + s - d2 - 1) <= q).
    { assert (Hbig : 2 ^ (d1 + s - d2 - 1) * 2 ^ d2 <= m').
      { rewrite <- Z.pow_add_r by lia.
        replace (d1 + s - d2 - 1 + d2) with (d1 - 1 + s) by lia.
        rewrite Z.pow_add_r by lia. rewrite Hm'. nia. }
      assert (Hp : 0 < 2 ^ (d1 + s - d2 - 1)) by (apply Z.pow_pos_nonneg; lia).
      destruct (Z_lt_le_dec q (2 ^ (d1 + s - d2 - 1))) as [Lq|Gq]; [|exact Gq].
      exfalso. nia. }
    assert (d1 + s - d2 - 1 < Zdigits2 q) by (apply Zdigits2_lower; lia).
    lia. }
  unfold s in Hd. lia.
Qed.

Lemma div_is_binary64 x y :
  is_binary64 x = true -> is_binary64 y = true -> is_binary64 (Js.div x y) = true.
Proof.
  unfold is_binary64, Js.div. intros Vx Vy.
  destruct x as [sx|sx| |sx mx ex], y as [sy|sy| |sy my ey];
    cbn [SFdiv]; try reflexivity.
  pose proof (div_core_precondition (Zpos mx) ex (Zpos my) ey ltac:(lia) ltac:(lia)) as H.
  destruct (SFdiv_core_binary Js.prec Js.emax (Zpos mx) ex (Zpos my) ey) as [[q e'] l].
  destruct H as [Hq He]. apply binary_round_aux_valid; assumption.
Qed.

Lemma of_Z_is_binary64 z : is_binary64 (Js.of_Z z) = true.
Proof. apply binary_normalize_valid. Qed.

Lemma ageSeconds_is_binary64 now response :
  is_binary64 now = true -> is_binary64 (created response) = true ->
  is_binary64 (ageSeconds now response) = true.
Proof.
  intros Hn Hc. unfold ageSeconds.
  apply div_is_binary64; [apply sub_is_binary64; assumption|apply of_Z_is_binary64].
Qed.

End Binary64.

(** C3.  With [when-expired], a last response and [maxAgeSeconds = M], the
    decision is the comparison [ageSeconds > M] of the two binary64 values,
    where [ageSeconds] is the binary64 quotient of the millisecond difference
    by 1000.  It is false when the age equals [M]; and for binary64
    timestamps and [M], when the age and [M] stand for numbers, it is true
    exactly when the age exceeds [M] as a number, hence false at [age = M]
    and true at [age = M + eps] for every [eps > 0]. *)
Theorem when_expired_strictly_greater :
  forall Date_now response options M,
    triggerBehavior options = TriggerBehavior.WhenExpired ->
    maxAgeSeconds options = Some M ->
    let age := ageSeconds Date_now response in
    let decision := checkShouldResend Date_now (Some response) options in
    decision = Js.gt age M
    /\ (Js.num_eq age M = true -> decision = false)
    /\ (is_binary64 Date_now = true ->
        is_binary64 (created response) = true ->
        is_binary64 M = true ->
        forall a m,
          value age = Some a -> value M = Some m ->
          (decision = true <-> (m < a)%Q)
          /\ ((a == m)%Q -> decision = false)
          /\ (forall eps, (0 < eps)%Q -> (a == m + eps)%Q -> decision = true)).
Proof.
  intros Date_now response options M Ht HM age decision.
  assert (Hd : decision = Js.gt age M).
  { unfold decision, checkShouldResend. rewrite Ht, HM. reflexivity. }
  split; [exact Hd|].
  split; [intros He; rewrite Hd; apply num_eq_not_gt; exact He|].
  intros Vn Vc Vm a m Ea Em.
  pose proof (ageSeconds_is_binary64 Date_now response Vn Vc) as Va.
  pose proof (gt_value age M a m Va Vm Ea Em) as Hiff.
  rewrite <- Hd in Hiff.
  split; [exact Hiff|]. split.
  - intros Heq. destruct decision; [|reflexivity].
    exfalso. apply (Qlt_irrefl m).
    rewrite <- Heq at 2. apply Hiff. reflexivity.
  - intros eps Hpos Heq. apply Hiff. rewrite Heq.
    rewrite <- (Qplus_0_r m) at 1. apply Qplus_lt_r. exact Hpos.
Qed.

(* ================================================================== *)
(** ** The plugin on concrete hosts *)
(* ================================================================== *)

Import Scenario.

(** First match in header order. *)
Example first_cookie_wins :
  fst (run (after 1000) parse_cookie
         (host req_1
            (Some (stored [Header.mk "Set-Cookie" "a=1";
                           Header.mk "Set-Cookie" "a=2"]))
            (Some "send") None None)
         (args_of "a" None None) (state0 []))
  = Js.Normal "1".
Proof. vm_compute. reflexivity. Qed.

(** Keys are compared as they are, and the error lists each key. *)
Example missing_cookie_lists_keys :
  fst (run (after 1000) parse_cookie
         (host req_1
            (Some (stored [Header.mk "set-cookie" "A=1";
                           Header.mk "X-Other" "a=0";
                           Header.mk "SET-COOKIE" "b=2; Secure"]))
            (Some "send") None None)
         (args_of "a" None None) (state0 []))
  = Js.Throw (Js.Error "No a cookie for response. Choices are A, b.").
Proof. vm_compute. reflexivity. Qed.

(** A stored response of 120 seconds, [when-expired] with 60, purpose
    ["send"]: the request is sent again and the new response is used. *)
Example expired_response_is_refreshed :
  let '(result, st) :=
    run (after 120000) parse_cookie
      (host req_1 (Some (stored [])) (Some "send") None
         (Some (stored session_headers)))
      (args_of "session" (Some "when-expired") (Some (Js.of_Z 60)))
      (state0 []) in
  result = Js.Normal "abc123"
  /\ List.map sent_request (sent st) = [req_1]
  /\ List.map sent_heap (sent st) = [[["req_1"]]].
Proof. vm_compute. repeat split. Qed.

(** No stored response and [never]. *)
Example never_without_history :
  fst (run (after 1000) parse_cookie
         (host req_1 None (Some "send") None (Some (stored session_headers)))
         (args_of "session" None None) (state0 []))
  = Js.Throw (Js.Error "No responses for request").
Proof. vm_compute. reflexivity. Qed.

(** With the declared default written out as the fourth argument, a
    response of 120 seconds has expired. *)
Example expired_with_explicit_60 :
  checkShouldResend (after 120000) (Some (stored []))
    (parseOptions (args_of "session" (Some "when-expired")
                     (Some maxAgeSeconds_defaultValue)))
  = true.
Proof. vm_compute. reflexivity. Qed.

(** When every [Set-Cookie] value parses, the first matching cookie in
    header order is selected, or the keys are listed. *)
Example selection_when_all_parse :
  forall st,
    extractCookie parse_cookie "b"
      (Some (stored [Header.mk "Set-Cookie" "a=1";
                     Header.mk "Set-Cookie" "b=2";
                     Header.mk "Set-Cookie" "b=3"])) st
    = (Js.Normal "2", st).
Proof.
  intros st.
  rewrite (extractCookie_all_parsed parse_cookie "b" _ st
             [Cookie.mk "a" "1"; Cookie.mk "b" "2"; Cookie.mk "b" "3"]).
  - reflexivity.
  - split; reflexivity.
  - discriminate.
  - reflexivity.
Qed.


(* ================================================================== *)
(** ** Instances of the theorems *)
(* ================================================================== *)

Lemma checkShouldResend_decision_table_witness :
  checkShouldResend (after 1000) (Some (stored []))
    (parseOptions (args_of "session" (Some "Sometimes") None)) = false.
Proof.
  apply (proj2 (proj2 (proj2 (proj2
          (proj2 (checkShouldResend_decision_table (after 1000)
                    (Some (stored [])))
             (parseOptions (args_of "session" (Some "Sometimes") None)))))));
    vm_compute; discriminate.
Defined.

Lemma when_expired_strictly_greater_witness :
  checkShouldResend (after 60001) (Some (stored []))
    (parseOptions (args_of "session" (Some "When-Expired") (Some (Js.of_Z 60))))
  = true
  /\ checkShouldResend (after 60000) (Some (stored []))
       (parseOptions (args_of "session" (Some "When-Expired") (Some (Js.of_Z 60))))
     = false.
Proof.
  split.
  - pose proof (when_expired_strictly_greater (after 60001) (stored [])
                  (parseOptions (args_of "session" (Some "When-Expired")
                                   (Some (Js.of_Z 60))))
                  (Js.of_Z 60) eq_refl eq_refl) as H.
    cbv zeta in H. destruct H as [_ [_ H]].
    destruct (H eq_refl eq_refl eq_refl
                (number_of (ageSeconds (after 60001) (stored [])))
                (number_of (Js.of_Z 60))) as [Hiff _];
      [vm_compute; reflexivity | vm_compute; reflexivity | ].
    apply Hiff. vm_compute. reflexivity.
  - pose proof (when_expired_strictly_greater (after 60000) (stored [])
                  (parseOptions (args_of "session" (Some "When-Expired")
                                   (Some (Js.of_Z 60))))
                  (Js.of_Z 60) eq_refl eq_refl) as H.
    cbv zeta in H. destruct H as [_ [H _]].
    apply H. vm_compute. reflexivity.
Defined.

Lemma cycle_guard_skips_reexecution_witness :
  sent (snd (run (after 120000) parse_cookie
               (host req_1 (Some (stored session_headers)) (Some "send")
                  (Some 0%nat) (Some (stored [])))
               (args_of "session" (Some "always") None)
               (state0 [["req_0"; "req_1"]])))
  = []
  /\ fst (run (after 120000) parse_cookie
            (host req_1 (Some (stored session_headers)) (Some "send")
               (Some 0%nat) (Some (stored [])))
            (args_of "session" (Some "always") None)
            (state0 [["req_0"; "req_1"]]))
     = Js.Normal "abc123".
Proof.
  pose proof (cycle_guard_skips_reexecution (after 120000) parse_cookie
                (host req_1 (Some (stored session_headers)) (Some "send")
                   (Some 0%nat) (Some (stored [])))
                (args_of "session" (Some "always") None)
                (state0 [["req_0"; "req_1"]])
                "req_1" "session" req_1 0%nat
                eq_refl ltac:(discriminate) eq_refl ltac:(discriminate)
                eq_refl eq_refl ltac:(right; left; reflexivity)) as H.
  cbv zeta in H.
  destruct H as [_ [_ [[st' [_ [_ [_ Hrun]]]] [Hsent _]]]].
  split; [exact Hsent|].
  vm_compute. reflexivity.
Defined.

Lemma reexecution_needs_decision_and_send_witness :
  checkShouldResend (after 1000) None
    (parseOptions (args_of "session" (Some "always") None)) = true
  /\ fails NoResponse (Js.Error "No responses for request")
       (run (after 1000) parse_cookie
          (host req_1 None (Some "preview") None (Some (stored session_headers)))
          (args_of "session" (Some "always") None) (state0 []))
  /\ sent (snd (run (after 1000) parse_cookie
                  (host req_1 None (Some "preview") None
                     (Some (stored session_headers)))
                  (args_of "session" (Some "always") None) (state0 [])))
     = [].
Proof.
  pose proof (reexecution_needs_decision_and_send (after 1000) parse_cookie
                (host req_1 None (Some "preview") None
                   (Some (stored session_headers)))
                (args_of "session" (Some "always") None) (state0 [])) as H.
  destruct H as [Hsent H].
  split; [reflexivity|]. split.
  - apply (proj2 (H "req_1" "session" req_1
                    eq_refl ltac:(discriminate) eq_refl ltac:(discriminate)
                    eq_refl));
      [discriminate|reflexivity].
  - apply Hsent. discriminate.
Defined.

Lemma resendRequest_appends_in_place_witness :
  exists call,
    sent (snd (resendRequest
                 (host req_b None (Some "send") (Some 0%nat) None)
                 req_b (state0 [["req_a"]])))
    = [call]
    /\ sent_extraInfo call = [("requestChain", 0%nat)]
    /\ heap_get (sent_heap call) 0%nat = ["req_a"; "req_b"].
Proof.
  destruct (proj1 (resendRequest_appends_in_place
                     (host req_b None (Some "send") (Some 0%nat) None)
                     req_b (state0 [["req_a"]]))
              0%nat eq_refl ltac:(cbn; lia)
              ltac:(intros [H|[]]; discriminate H))
    as [call [Hs [_ [He [Hh _]]]]].
  exists call. split; [exact Hs|]. split; [exact He|exact Hh].
Defined.

(** C5 as stated fails: the store holds the chain [["req_a"]], the request
    [req_b] is re-executed, and when the transport is called the stored
    array itself is [["req_a"; "req_b"]]. *)
Lemma chain_passed_by_copy_counterexample :
  ~ chain_passed_by_copy
      (host req_b None (Some "send") (Some 0%nat) None)
      req_b (state0 [["req_a"]]).
Proof.
  intros H.
  destruct (H 0%nat
              {| sent_request := req_b;
                 sent_extraInfo := [("requestChain", 0%nat)];
                 sent_heap := [["req_a"; "req_b"]] |}
              eq_refl eq_refl) as [_ Hsame].
  vm_compute in Hsame. discriminate Hsame.
Qed.

Lemma checkShouldResend_absent_maxAge_witness :
  maxAgeSeconds (parseOptions (args_of "session" (Some "when-expired") None))
  = None
  /\ checkShouldResend (after 120000) (Some (stored []))
       (parseOptions (args_of "session" (Some "when-expired") None))
     = false.
Proof.
  apply (checkShouldResend_absent_maxAge (after 120000)
           (args_of "session" (Some "when-expired") None) (stored []));
    reflexivity.
Defined.

Lemma response_validation_order_witness :
  fails NoSuccessfulResponse (Js.Error "No successful responses for request")
    (run (after 1000) parse_cookie
       (host req_1 (Some (response_of t0 None None session_headers))
          (Some "send") None None)
       (args_of "session" None None) (state0 [])).
Proof.
  apply (proj2 (proj2
           (response_validation_order (after 1000) parse_cookie
              (host req_1 (Some (response_of t0 None None session_headers))
                 (Some "send") None None)
              (args_of "session" None None) (state0 [])
              "req_1" "session" req_1
              (Some (response_of t0 None None session_headers)) (state0 [])
              eq_refl ltac:(discriminate) eq_refl ltac:(discriminate)
              eq_refl eq_refl))
           (response_of t0 None None session_headers));
    reflexivity.
Defined.

Lemma selection_throws_on_unparsable_header_witness :
  parse_cookie "a=1" = Some (Cookie.mk "a" "1")
  /\ run (after 1000) parse_cookie
       (host req_1
          (Some (stored [Header.mk "Set-Cookie" "a=1";
                         Header.mk "Set-Cookie" "garbage"]))
          (Some "send") None None)
       (args_of "a" None None) (state0 [])
     = (Js.Throw (Js.TypeError "key"), state0 []).
Proof.
  split; [reflexivity|].
  apply (proj1
           (selection_throws_on_unparsable_header (after 1000) parse_cookie
              (host req_1
                 (Some (stored [Header.mk "Set-Cookie" "a=1";
                                Header.mk "Set-Cookie" "garbage"]))
                 (Some "send") None None)
              (args_of "a" None None) (state0 [])
              "req_1" "a" req_1
              (stored [Header.mk "Set-Cookie" "a=1";
                       Header.mk "Set-Cookie" "garbage"])
              (state0 []) (Header.mk "Set-Cookie" "garbage")
              eq_refl ltac:(discriminate) eq_refl ltac:(discriminate)
              eq_refl eq_refl
              (conj eq_refl eq_refl)
              ltac:(right; left; reflexivity)
              eq_refl)).
Defined.

Lemma missing_request_throws_ReferenceError_witness :
  run (after 1000) parse_cookie
    (host req_1 (Some (stored session_headers)) (Some "send") None None)
    (mkArgs "req_2" "session" None None) (state0 [])
  = (Js.Throw (Js.ReferenceError "reqId"), state0 [])
  /\ contains "req_2" (message (Js.ReferenceError "reqId")) = false.
Proof.
  split; [|reflexivity].
  apply (proj1
           (missing_request_throws_ReferenceError (after 1000) parse_cookie
              (host req_1 (Some (stored session_headers)) (Some "send")
                 None None)
              (mkArgs "req_2" "session" None None) (state0 [])
              "req_2" "session"
              eq_refl ltac:(discriminate) eq_refl ltac:(discriminate)
              eq_refl)).
Defined.

Lemma unparsable_cookies_throw_TypeError_witness :
  run (after 1000) parse_cookie
    (host req_1
       (Some (stored [Header.mk "Set-Cookie" "garbage";
                      Header.mk "Set-Cookie" "=x"]))
       (Some "send") None None)
    (args_of "session" None None) (state0 [])
  = (Js.Throw (Js.TypeError "key"), state0 []).
Proof.
  apply (proj1 (proj2 (proj2
           (unparsable_cookies_throw_TypeError (after 1000) parse_cookie
              (host req_1
                 (Some (stored [Header.mk "Set-Cookie" "garbage";
                                Header.mk "Set-Cookie" "=x"]))
                 (Some "send") None None)
              (args_of "session" None None) (state0 [])
              "req_1" "session" req_1
              (stored [Header.mk "Set-Cookie" "garbage";
                       Header.mk "Set-Cookie" "=x"])
              (state0 [])
              eq_refl ltac:(discriminate) eq_refl ltac:(discriminate)
              eq_refl eq_refl
              (conj eq_refl eq_refl)
              ltac:(discriminate)
              ltac:(intros h [<-|[<-|[]]]; reflexivity))))).
Defined.

(* ================================================================== *)
(** ** Argument validation and option parsing *)
(* ================================================================== *)

(** X1.  [run] checks its first two arguments before anything else: an
    absent or empty request id ends it with "No request specified", and
    otherwise an absent or empty cookie name ends it with "No cookie
    specified".  In both cases nothing is logged, no array is touched and the
    transport is not called; the request store is not consulted, so the
    outcome is the same whether or not the request exists. *)
Theorem run_validates_arguments_first :
  forall Date_now parse context args st,
    (Js.truthy_string (arg0 args) = false ->
     run Date_now parse context args st
     = (Js.Throw (Js.Error "No request specified"), st))
    /\ (Js.truthy_string (arg0 args) = true ->
        Js.truthy_string (arg1 args) = false ->
        run Date_now parse context args st
        = (Js.Throw (Js.Error "No cookie specified"), st)).
Proof.
  intros Date_now parse context args st.
  unfold run. cbn [reqId cookieName parseOptions]. split.
  - intros H. destruct (arg0 args) as [[|a s]|]; try reflexivity. discriminate H.
  - intros H0 H1.
    destruct (arg0 args) as [[|a s]|]; try discriminate H0.
    destruct (arg1 args) as [[|b t]|]; try reflexivity. discriminate H1.
Qed.

Lemma parseOptions_ext a1 a2 :
  arg0 a1 = arg0 a2 -> arg1 a1 = arg1 a2 -> arg3 a1 = arg3 a2 ->
  Js.toLowerCase (Js.or_string (arg2 a1) defaultTriggerBehaviour)
  = Js.toLowerCase (Js.or_string (arg2 a2) defaultTriggerBehaviour) ->
  parseOptions a1 = parseOptions a2.
Proof. intros H0 H1 H3 H2. unfold parseOptions. rewrite H0, H1, H2, H3. reflexivity. Qed.

Lemma run_parseOptions Date_now parse context a1 a2 :
  parseOptions a1 = parseOptions a2 ->
  run Date_now parse context a1 = run Date_now parse context a2.
Proof. intros H. unfold run. rewrite H. reflexivity. Qed.

(** X2.  [run] sees the trigger behaviour only through its lower-cased
    form, an absent or empty one counting as ["never"]: two argument lists
    that agree on the other three arguments and whose trigger behaviours
    differ only in letter case evaluate identically (same result, same log,
    same transport calls). *)
Theorem run_ignores_trigger_case :
  forall Date_now parse context a1 a2 st,
    arg0 a1 = arg0 a2 -> arg1 a1 = arg1 a2 -> arg3 a1 = arg3 a2 ->
    Js.toLowerCase (Js.or_string (arg2 a1) "never")
    = Js.toLowerCase (Js.or_string (arg2 a2) "never") ->
    run Date_now parse context a1 st = run Date_now parse context a2 st.
Proof.
  intros Date_now parse context a1 a2 st H0 H1 H3 H2.
  rewrite (run_parseOptions Date_now parse context a1 a2); [reflexivity|].
  apply parseOptions_ext; assumption.
Qed.

(** X3.  The [maxAgeSeconds] field is hidden exactly when the trigger
    behaviour of the values entered does not normalise to ["when-expired"],
    and whenever it is hidden its value has no influence on the resend
    decision taken for those values. *)
Theorem hide_only_when_maxAge_is_irrelevant :
  forall args,
    (hide args = false
     <-> triggerBehavior (parseOptions (values args))
         = TriggerBehavior.WhenExpired)
    /\ (hide args = true ->
        forall Date_now response m m',
          checkShouldResend Date_now response
            (with_maxAgeSeconds (parseOptions (values args)) m)
          = checkShouldResend Date_now response
              (with_maxAgeSeconds (parseOptions (values args)) m')).
Proof.
  intros args. unfold hide. split.
  - rewrite negb_false_iff. apply String.eqb_eq.
  - rewrite negb_true_iff. intros H Date_now response m m'.
    unfold checkShouldResend. cbn [triggerBehavior with_maxAgeSeconds].
    rewrite H. reflexivity.
Qed.

(* ================================================================== *)
(** ** Edges of the expiry test *)
(* ================================================================== *)

Lemma sub_NaN_r x : Js.sub x Js.NaN = Js.NaN.
Proof. destruct x; reflexivity. Qed.

Lemma div_NaN_l y : Js.div Js.NaN y = Js.NaN.
Proof. reflexivity. Qed.

Lemma NaN_gt y : Js.gt Js.NaN y = false.
Proof. destruct y; reflexivity. Qed.

(** X4.  With [when-expired] and a last response, the decision is false as
    soon as the clock, the creation time of the response or [maxAgeSeconds]
    is NaN: a response whose age cannot be computed, or a threshold that is
    not a number, never triggers a resend. *)
Theorem when_expired_NaN_never_resends :
  forall Date_now response options,
    triggerBehavior options = TriggerBehavior.WhenExpired ->
    Date_now = Js.NaN \/ created response = Js.NaN
    \/ Js.ToNumber (maxAgeSeconds options) = Js.NaN ->
    checkShouldResend Date_now (Some response) options = false.
Proof.
  intros Date_now response options Ht H.
  unfold checkShouldResend. rewrite Ht. cbn [String.eqb Ascii.eqb Bool.eqb
    TriggerBehavior.Always TriggerBehavior.NoHistory TriggerBehavior.WhenExpired].
  unfold ageSeconds.
  destruct H as [H|[H|H]].
  - rewrite H. cbn [Js.sub Js.NaN SFsub]. apply NaN_gt.
  - rewrite H, sub_NaN_r. apply NaN_gt.
  - rewrite H. apply gt_NaN.
Qed.

Lemma gt_infinity_l s y :
  is_real y = true -> Js.gt (S754_infinity s) y = negb s.
Proof. destruct y, s; try discriminate; reflexivity. Qed.

(** X5.  Under [when-expired] the decision is monotone in the threshold:
    if a response is expired for [maxAgeSeconds = M'], it is expired for
    every smaller [M].  Raising the maximal age never causes a resend. *)
Theorem when_expired_monotone_in_maxAge :
  forall Date_now response options options' M M' m m',
    triggerBehavior options = TriggerBehavior.WhenExpired ->
    triggerBehavior options' = TriggerBehavior.WhenExpired ->
    maxAgeSeconds options = Some M ->
    maxAgeSeconds options' = Some M' ->
    is_binary64 Date_now = true ->
    is_binary64 (created response) = true ->
    is_binary64 M = true -> is_binary64 M' = true ->
    value M = Some m -> value M' = Some m' ->
    (m <= m')%Q ->
    checkShouldResend Date_now (Some response) options' = true ->
    checkShouldResend Date_now (Some response) options = true.
Proof.
  intros Date_now response options options' M M' m m'
         Ht Ht' HM HM' Vn Vc VM VM' Em Em' Hle.
  unfold checkShouldResend. rewrite Ht, Ht', HM, HM'.
  cbn [String.eqb Ascii.eqb Bool.eqb Js.ToNumber
    TriggerBehavior.Always TriggerBehavior.NoHistory TriggerBehavior.WhenExpired].
  pose proof (ageSeconds_is_binary64 Date_now response Vn Vc) as Va.
  destruct (ageSeconds Date_now response) as [s|s| |s ma ea] eqn:Ea.
  - intros H. apply (gt_value _ M' 0%Q m' Va VM' eq_refl Em') in H.
    apply (gt_value _ M 0%Q m Va VM eq_refl Em).
    apply Qle_lt_trans with m'; assumption.
  - rewrite !gt_infinity_l by (eapply value_is_real; eassumption). auto.
  - rewrite NaN_gt. discriminate.
  - intros H. apply (gt_value _ M' _ m' Va VM' eq_refl Em') in H.
    apply (gt_value _ M _ m Va VM eq_refl Em).
    apply Qle_lt_trans with m'; assumption.
Qed.

(* ================================================================== *)
(** ** What [resendRequest] and [run] do to the state *)
(* ================================================================== *)

Lemma app_one_neq {A} (l : list A) x : l <> app l [x].
Proof.
  intros H. apply (f_equal (@List.length A)) in H.
  rewrite length_app in H. cbn in H. lia.
Qed.

(** The three ways [resendRequest] can go. *)
Lemma resendRequest_cases context request st :
  (exists r,
      getExtraInfo context "requestChain" = Some r
      /\ In (_id request) (heap_get (heap st) r)
      /\ resendRequest context request st
         = (Js.Normal None, snd (log "Preventing recursive render" st)))
  \/ (exists r,
         getExtraInfo context "requestChain" = Some r
         /\ ~ In (_id request) (heap_get (heap st) r)
         /\ resendRequest context request st
            = sendRequest context request [("requestChain", r)]
                (snd (push r (_id request)
                        (snd (log "Resending dependency" st)))))
  \/ (getExtraInfo context "requestChain" = None
      /\ resendRequest context request st
         = sendRequest context request
             [("requestChain", List.length (heap st))]
             {| heap := app (heap st) [[_id request]];
                console := app (console st)
                             [logPrefix ++ " " ++ "Resending dependency"];
                sent := sent st |}).
Proof.
  destruct (getExtraInfo context "requestChain") as [r|] eqn:E.
  - destruct (in_dec string_dec (_id request) (heap_get (heap st) r)) as [Hin|Hin].
    + left. exists r. repeat split; auto. apply (resendRequest_cycle _ _ _ r); assumption.
    + right. left. exists r. repeat split; auto.
      apply (resendRequest_stored _ _ _ r); assumption.
  - right. right. split; [reflexivity|]. apply resendRequest_fresh. exact E.
Qed.

Lemma sendRequest_result context request extra st :
  sendRequest context request extra st
  = (Js.Normal (fst (network_sendRequest context request extra (heap st))),
     {| heap := snd (network_sendRequest context request extra (heap st));
        console := console st;
        sent := app (sent st) [{| sent_request := request;
                                  sent_extraInfo := extra;
                                  sent_heap := heap st |}] |}).
Proof.
  unfold sendRequest.
  destruct (network_sendRequest context request extra (heap st)); reflexivity.
Qed.

(** [resendRequest] always completes normally; it adds one line to the
    console and at most one call. *)
Lemma resendRequest_effects context request st :
  exists resent st' line calls,
    resendRequest context request st = (Js.Normal resent, st')
    /\ console st' = app (console st) [logPrefix ++ " " ++ line]
    /\ sent st' = app (sent st) calls
    /\ (calls = [] /\ resent = None /\ heap st' = heap st
        \/ exists r h,
            calls = [{| sent_request := request;
                        sent_extraInfo := [("requestChain", r)];
                        sent_heap := h |}]
            /\ resent = fst (network_sendRequest context request
                               [("requestChain", r)] h)).
Proof.
  destruct (resendRequest_cases context request st)
    as [[r [_ [_ E]]]|[[r [_ [_ E]]]|[_ E]]]; rewrite E.
  - exists None. eexists. exists "Preventing recursive render", [].
    split; [reflexivity|]. split; [reflexivity|].
    split; [cbn; rewrite app_nil_r; reflexivity|]. left. auto.
  - rewrite sendRequest_result. eexists. eexists.
    exists "Resending dependency". eexists.
    split; [reflexivity|]. split; [reflexivity|]. split; [reflexivity|].
    right. exists r. eexists. split; reflexivity.
  - rewrite sendRequest_result. eexists. eexists.
    exists "Resending dependency". eexists.
    split; [reflexivity|]. split; [reflexivity|]. split; [reflexivity|].
    right. eexists. eexists. split; reflexivity.
Qed.

Lemma extractCookie_state parse name response st :
  exists lines,
    console (snd (extractCookie parse name response st))
    = app (console st) (List.map (fun l => logPrefix ++ " " ++ l) lines)
    /\ (List.length lines <= 1)%nat
    /\ (forall v, fst (extractCookie parse name response st) = Js.Normal v ->
                  lines = []).
Proof.
  unfold extractCookie.
  destruct response as [r|].
  2:{ exists ["No response found"]. repeat split; auto. intros v H; discriminate H. }
  destruct (Js.truthy_string (error r)).
  { eexists [_]. repeat split; auto. intros v H; discriminate H. }
  destruct (negb (Js.truthy_int (statusCode r))).
  { eexists [_]. repeat split; auto. intros v H; discriminate H. }
  cbv zeta. exists []. cbn [List.map List.length]. rewrite app_nil_r.
  split; [|split; [lia|reflexivity]].
  destruct (List.length (getCookies parse r) =? 0)%nat; [reflexivity|].
  unfold bind, lift.
  destruct (Js.filter _ _) as [matching|e]; [|reflexivity].
  destruct matching as [|[c|] ?];
    [destruct (Js.map key_of (getCookies parse r)); reflexivity
    |reflexivity
    |destruct (Js.map key_of (getCookies parse r)); reflexivity].
Qed.


(** The response [run] goes on with: always a normal completion. *)
Lemma obtainResponse_cases Date_now context request options st :
  let known :=
    response_getLatestForRequestId context (_id request)
      (getEnvironmentId context) in
  obtainResponse Date_now context request options st = (Js.Normal known, st)
  \/ exists resent st',
      resendRequest context request st = (Js.Normal resent, st')
      /\ checkShouldResend Date_now known options = true
      /\ renderPurpose context = Some "send"
      /\ obtainResponse Date_now context request options st
         = (Js.Normal (match resent with Some r => Some r | None => known end),
            st').
Proof.
  intros known. unfold obtainResponse. fold known.
  destruct (checkShouldResend Date_now known options) eqn:Ed;
    [|left; reflexivity].
  destruct (renderPurpose context) as [p|] eqn:Ep; [|left; reflexivity].
  destruct (p =? "send") eqn:Es; [|left; reflexivity].
  apply String.eqb_eq in Es. subst p.
  right.
  destruct (resendRequest_effects context request st)
    as [resent [st' [line [calls [E _]]]]].
  exists resent, st'. split; [exact E|]. repeat split.
  cbn [andb]. unfold bind. rewrite E. reflexivity.
Qed.


(** X7.  One evaluation of [run] calls the transport at most once, and only
    for the request the store resolved the request id to, with exactly one
    metadata entry, named [requestChain]. *)
Theorem run_calls_transport_at_most_once :
  forall Date_now parse context args st,
    exists calls,
      sent (snd (run Date_now parse context args st)) = app (sent st) calls
      /\ (List.length calls <= 1)%nat
      /\ (forall call,
             In call calls ->
             (exists id, arg0 args = Some id
                         /\ request_getById context id
                            = Some (sent_request call))
             /\ exists r, sent_extraInfo call = [("requestChain", r)]).
Proof.
  intros Date_now parse context args st.
  destruct (run_cases Date_now parse context args)
    as [[e He]|[id [name [request [H0 [Hn0 [H1 [Hn1 Hr]]]]]]]].
  - rewrite He. exists []. cbn. rewrite app_nil_r.
    split; [reflexivity|]. split; [lia|]. intros call [].
  - rewrite (run_resolved _ _ _ _ _ _ _ H0 Hn0 H1 Hn1 Hr). unfold bind.
    destruct (obtainResponse_cases Date_now context request (parseOptions args) st)
      as [E|[resent [st' [Er [_ [_ E]]]]]]; rewrite E.
    + exists []. rewrite app_nil_r.
      split; [apply extractCookie_frame|]. split; [cbn; lia|]. intros call [].
    + destruct (resendRequest_effects context request st)
        as [resent' [st'' [line [calls [Er' [_ [Hs Hc]]]]]]].
      rewrite Er in Er'. injection Er' as <- <-.
      exists calls.
      match goal with |- context [extractCookie ?p ?n ?r ?s] =>
        destruct (extractCookie_frame p n r s) as [_ Hf]; rewrite Hf end.
      split; [exact Hs|].
      destruct Hc as [[-> _]|[r [h [Hc _]]]].
      * split; [cbn; lia|]. intros call [].
      * rewrite Hc. split; [cbn; lia|].
        intros call [<-|[]]. cbn [sent_request sent_extraInfo].
        split; [exists id; auto|exists r; reflexivity].
Qed.

Lemma prefix_app s t : String.prefix s (s ++ t) = true.
Proof.
  induction s as [|a s IH]; [destruct t; reflexivity|].
  cbn. rewrite IH. destruct (ascii_dec a a); [reflexivity|congruence].
Qed.

(** X8.  [run] only appends to the console: at most two lines, each
    beginning with ["[responseCookie tag] "], and at most one line (the one
    of [resendRequest]) when it returns a value. *)
Theorem run_log_lines_are_prefixed :
  forall Date_now parse context args st,
    exists lines,
      console (snd (run Date_now parse context args st))
      = app (console st) lines
      /\ (List.length lines <= 2)%nat
      /\ Forall (fun l => String.prefix "[responseCookie tag] " l = true) lines
      /\ (forall v,
             fst (run Date_now parse context args st) = Js.Normal v ->
             (List.length lines <= 1)%nat).
Proof.
  intros Date_now parse context args st.
  destruct (run_cases Date_now parse context args)
    as [[e He]|[id [name [request [H0 [Hn0 [H1 [Hn1 Hr]]]]]]]].
  - rewrite He. exists []. cbn. rewrite app_nil_r. auto.
  - rewrite (run_resolved _ _ _ _ _ _ _ H0 Hn0 H1 Hn1 Hr). unfold bind.
    assert (Hpre : forall l, String.prefix "[responseCookie tag] "
                               (logPrefix ++ " " ++ l) = true).
    { intros l. apply (prefix_app "[responseCookie tag] " l). }
    destruct (obtainResponse_cases Date_now context request (parseOptions args) st)
      as [E|[resent [st' [Er [_ [_ E]]]]]]; rewrite E.
    + match goal with |- context [extractCookie ?p ?n ?r ?s] =>
        destruct (extractCookie_state p n r s) as [lines [Hc [Hl Hn]]] end.
      eexists. split; [exact Hc|]. rewrite length_map. split; [lia|].
      split; [|intros; lia].
      apply Forall_forall. intros l Hin. apply in_map_iff in Hin.
      destruct Hin as [l' [<- _]]. apply Hpre.
    + destruct (resendRequest_effects context request st)
        as [resent' [st'' [line [calls [Er' [Hco _]]]]]].
      rewrite Er in Er'. injection Er' as <- <-.
      match goal with |- context [extractCookie ?p ?n ?r ?s] =>
        destruct (extractCookie_state p n r s) as [lines [Hc [Hl Hn]]] end.
      rewrite Hc, Hco, <- app_assoc. eexists. split; [reflexivity|].
      cbn [app List.length]. rewrite length_map. split; [lia|].
      split.
      * constructor; [apply Hpre|].
        apply Forall_forall. intros l Hin. apply in_map_iff in Hin.
        destruct Hin as [l' [<- _]]. apply Hpre.
      * intros v Hv. rewrite (Hn v Hv). cbn. lia.
Qed.

(** X9.  Once [resendRequest] has called the transport, the id of the
    request is in the array it forwarded.  Any nested evaluation that reads
    this array as its chain, in a heap where the array still holds what it
    held at the time of the call, is stopped by the guard: it completes with
    no response and does not call the transport again. *)
Theorem nested_resend_is_guarded :
  forall context request st call,
    (forall r, getExtraInfo context "requestChain" = Some r ->
               (r < List.length (heap st))%nat) ->
    sent (snd (resendRequest context request st)) = app (sent st) [call] ->
    exists r,
      sent_extraInfo call = [("requestChain", r)]
      /\ In (_id request) (heap_get (sent_heap call) r)
      /\ forall context' st',
           getExtraInfo context' "requestChain" = Some r ->
           incl (heap_get (sent_heap call) r) (heap_get (heap st') r) ->
           fst (resendRequest context' request st') = Js.Normal None
           /\ sent (snd (resendRequest context' request st')) = sent st'.
Proof.
  intros context request st call Hwf Hs.
  assert (Hguard : forall r,
             In (_id request) (heap_get (sent_heap call) r) ->
             forall context' st',
               getExtraInfo context' "requestChain" = Some r ->
               incl (heap_get (sent_heap call) r) (heap_get (heap st') r) ->
               fst (resendRequest context' request st') = Js.Normal None
               /\ sent (snd (resendRequest context' request st')) = sent st').
  { intros r Hin context' st' Hr Hincl.
    rewrite (resendRequest_cycle context' request st' r Hr (Hincl _ Hin)).
    split; reflexivity. }
  destruct (resendRequest_cases context request st)
    as [[r [_ [_ E]]]|[[r [Er [_ E]]]|[Er E]]]; rewrite E in Hs.
  - cbn in Hs. exfalso. exact (app_one_neq _ _ Hs).
  - rewrite sendRequest_result in Hs. cbn [snd sent push log heap] in Hs.
    apply app_inv_head in Hs. injection Hs as Hs. subst call.
    cbn [sent_extraInfo sent_heap].
    assert (Hin : In (_id request)
                    (heap_get (heap_set (heap st) r
                                 (app (heap_get (heap st) r) [_id request])) r)).
    { rewrite heap_get_set_same by (apply Hwf; exact Er).
      apply in_or_app. right. left. reflexivity. }
    exists r. split; [reflexivity|]. split; [exact Hin|].
    apply (Hguard r Hin).
  - rewrite sendRequest_result in Hs. cbn [snd sent heap] in Hs.
    apply app_inv_head in Hs. injection Hs as Hs. subst call.
    cbn [sent_extraInfo sent_heap].
    assert (Hin : In (_id request)
                    (heap_get (app (heap st) [[_id request]])
                       (List.length (heap st)))).
    { rewrite heap_get_fresh. left. reflexivity. }
    exists (List.length (heap st)). split; [reflexivity|]. split; [exact Hin|].
    apply (Hguard _ Hin).
Qed.

(* ================================================================== *)
(** ** Outcomes of [run] *)
(* ================================================================== *)

Lemma filter_key_failure name cookies e :
  Js.filter (key_is name) cookies = Js.Throw e -> e = Js.TypeError "key".
Proof.
  induction cookies as [|c cookies IH]; [discriminate|].
  cbn [Js.filter]. destruct c as [c|]; cbn [key_is key_of Js.cbind].
  - destruct (Js.filter (key_is name) cookies) as [m|e'];
      cbn [Js.cbind]; [discriminate|].
    intros H. injection H as <-. apply IH. reflexivity.
  - intros H. injection H as <-. reflexivity.
Qed.

Lemma map_key_failure cookies e :
  Js.map key_of cookies = Js.Throw e -> e = Js.TypeError "key".
Proof.
  induction cookies as [|c cookies IH]; [discriminate|].
  cbn [Js.map]. destruct c as [c|]; cbn [key_of Js.cbind].
  - destruct (Js.map key_of cookies) as [m|e'];
      cbn [Js.cbind]; [discriminate|].
    intros H. injection H as <-. apply IH. reflexivity.
  - intros H. injection H as <-. reflexivity.
Qed.

Lemma filter_normal_present name cookies m :
  Js.filter (key_is name) cookies = Js.Normal m ->
  exists cs, cookies = List.map Some cs.
Proof.
  revert m. induction cookies as [|c cookies IH]; intros m.
  - exists []. reflexivity.
  - cbn [Js.filter]. destruct c as [c|]; cbn [key_is key_of Js.cbind];
      [|discriminate].
    destruct (Js.filter (key_is name) cookies) as [m'|e'] eqn:E;
      cbn [Js.cbind]; [|discriminate].
    intros _. destruct (IH m' eq_refl) as [cs Hcs].
    exists (c :: cs). cbn. rewrite Hcs. reflexivity.
Qed.



Lemma extractCookie_normal parse name response st v :
  fst (extractCookie parse name response st) = Js.Normal v ->
  exists r cs c,
    response = Some r
    /\ passes_validation r
    /\ getCookies parse r = List.map Some cs
    /\ first_match (fun c => Cookie.key c =? name) cs = Some c
    /\ Cookie.value c = v.
Proof.
  destruct response as [r|]; [|discriminate].
  destruct (Js.truthy_string (error r)) eqn:Ee;
    [unfold extractCookie; rewrite Ee; discriminate|].
  destruct (Js.truthy_int (statusCode r)) eqn:Es;
    [|unfold extractCookie; rewrite Ee, Es; discriminate].
  assert (Hv : passes_validation r) by (split; assumption).
  rewrite (extractCookie_valid parse name r st Hv). cbv zeta.
  destruct (List.length (getCookies parse r) =? 0)%nat eqn:El; [discriminate|].
  unfold bind, lift.
  destruct (Js.filter (key_is name) (getCookies parse r)) as [m|e] eqn:Ef;
    [|discriminate].
  destruct (filter_normal_present _ _ _ Ef) as [cs Hcs].
  intros H.
  assert (Hne : cs <> []).
  { intros ->. rewrite Hcs in El. discriminate. }
  pose proof (extractCookie_all_parsed parse name r st cs Hv Hne Hcs) as Hall.
  rewrite (extractCookie_valid parse name r st Hv) in Hall. cbv zeta in Hall.
  rewrite El in Hall. unfold bind, lift in Hall. rewrite Ef in Hall.
  rewrite Hall in H.
  destruct (first_match (fun c => Cookie.key c =? name) cs) as [c|] eqn:Ec;
    [|discriminate].
  cbn in H. injection H as <-.
  exists r, cs, c. repeat split; auto.
Qed.

(** X11.  A value returned by [run] is always the value of a cookie of a
    response: the arguments name a stored request; the response is its
    latest stored one or an answer of the transport; that response has no
    error and a status code; every one of its [Set-Cookie] values parsed;
    and the value is that of the first parsed cookie, in header order, whose
    key equals the requested name. *)
Theorem run_value_is_first_matching_cookie :
  forall Date_now parse context args st v,
    fst (run Date_now parse context args st) = Js.Normal v ->
    exists id name request r cs c,
      arg0 args = Some id /\ arg1 args = Some name
      /\ request_getById context id = Some request
      /\ (response_getLatestForRequestId context (_id request)
            (getEnvironmentId context) = Some r
          \/ exists extra h,
              fst (network_sendRequest context request extra h) = Some r)
      /\ passes_validation r
      /\ getCookies parse r = List.map Some cs
      /\ first_match (fun c => Cookie.key c =? name) cs = Some c
      /\ Cookie.value c = v.
Proof.
  intros Date_now parse context args st v.
  destruct (run_cases Date_now parse context args)
    as [[e He]|[id [name [request [H0 [Hn0 [H1 [Hn1 Hr]]]]]]]].
  { rewrite He. discriminate. }
  rewrite (run_resolved _ _ _ _ _ _ _ H0 Hn0 H1 Hn1 Hr). unfold bind.
  destruct (obtainResponse_cases Date_now context request (parseOptions args) st)
    as [E|[resent [st' [Er [_ [_ E]]]]]]; rewrite E; intros H;
    apply extractCookie_normal in H;
    destruct H as [r [cs [c [Hresp [Hv [Hcs [Hfm Hval]]]]]]];
    exists id, name, request, r, cs, c.
  - split; [exact H0|]. split; [exact H1|]. split; [exact Hr|].
    split; [left; exact Hresp|]. auto.
  - split; [exact H0|]. split; [exact H1|]. split; [exact Hr|].
    split; [|auto].
    destruct (resendRequest_effects context request st)
      as [resent' [st'' [line [calls [Er' [_ [_ Hc]]]]]]].
    rewrite Er in Er'. injection Er' as <- <-.
    destruct Hc as [[_ [-> _]]|[r0 [h [_ ->]]]].
    + left. exact Hresp.
    + destruct (fst (network_sendRequest context request
                       [("requestChain", r0)] h)) as [r'|] eqn:En.
      * right. exists [("requestChain", r0)], h. rewrite En. exact Hresp.
      * left. exact Hresp.
Qed.

Lemma ends_with_app c s t :
  t <> "" -> ends_with c (s ++ t) = ends_with c t.
Proof.
  intros Ht. induction s as [|a s IH]; [reflexivity|].
  cbn [String.append ends_with].
  destruct (s ++ t) eqn:E; [|exact IH].
  destruct s; cbn in E; [congruence|discriminate E].
Qed.

Lemma append_nonempty s t : t <> "" -> s ++ t <> "".
Proof. intros Ht. destruct s; [exact Ht|discriminate]. Qed.

Lemma not_found_message_differs name keys :
  Js.Error ("No " ++ name ++ " cookie for response. Choices are "
            ++ Js.join ", " keys ++ ".")
  <> Js.Error "No cookies set for response".
Proof.
  intros H. apply (f_equal message) in H. cbn [message] in H.
  apply (f_equal (ends_with ".")) in H.
  rewrite !ends_with_app in H
    by (repeat apply append_nonempty; discriminate).
  discriminate H.
Qed.

(** X12.  For a response that passes validation, [run] fails with "No
    cookies set for response" exactly when the response has no header whose
    lower-cased name is [set-cookie]. *)
Theorem no_cookies_iff_no_set_cookie_header :
  forall Date_now parse context args st id name request r st',
    arg0 args = Some id -> id <> "" ->
    arg1 args = Some name -> name <> "" ->
    request_getById context id = Some request ->
    obtainResponse Date_now context request (parseOptions args) st
    = (Js.Normal (Some r), st') ->
    passes_validation r ->
    (fst (run Date_now parse context args st)
     = Js.Throw (Js.Error "No cookies set for response")
     <-> forall h, In h (headers r) ->
                   Js.toLowerCase (Header.name h) <> "set-cookie").
Proof.
  intros Date_now parse context args st id name request r st'
         H0 Hn0 H1 Hn1 Hreq Hob Hv.
  rewrite (run_resolved _ _ _ _ _ _ _ H0 Hn0 H1 Hn1 Hreq).
  unfold bind. rewrite Hob.
  rewrite (extractCookie_valid parse name r st' Hv). cbv zeta.
  rewrite getCookies_setCookieHeaders, length_map.
  unfold setCookieHeaders.
  destruct (List.filter _ (headers r)) as [|h0 hs] eqn:Ef.
  - cbn. split; [|reflexivity]. intros _ h Hin Hname.
    assert (Hin' : In h (List.filter
                           (fun h => Js.toLowerCase (Header.name h) =? "set-cookie")
                           (headers r))).
    { apply filter_In. split; [exact Hin|]. apply String.eqb_eq. exact Hname. }
    rewrite Ef in Hin'. destruct Hin'.
  - split.
    + intros H. exfalso. cbn [List.length Nat.eqb] in H.
      unfold bind, lift in H.
      destruct (Js.filter _ _) as [m|e] eqn:E1.
      * assert (Hnf : forall st0,
                   fst (bind (lift (Js.map key_of
                                      (List.map (fun h => parse (Header.value h))
                                         (h0 :: hs))))
                          (fun keys =>
                             throw (A:=string)
                               (Js.Error ("No " ++ name
                                          ++ " cookie for response. Choices are "
                                          ++ Js.join ", " keys ++ "."))) st0)
                   <> Js.Throw (Js.Error "No cookies set for response")).
        { intros st0. unfold bind, lift.
          destruct (Js.map key_of _) as [keys|e] eqn:E2;
            unfold throw; cbn [fst].
          - intros H'. apply (not_found_message_differs name keys).
            congruence.
          - apply map_key_failure in E2. subst e. discriminate. }
        destruct m as [|[c|] ?];
          [exact (Hnf _ H)|discriminate H|exact (Hnf _ H)].
      * apply filter_key_failure in E1. subst e. discriminate H.
    + intros Hall. exfalso.
      assert (Hin : In h0 (List.filter
                            (fun h => Js.toLowerCase (Header.name h) =? "set-cookie")
                            (headers r))) by (rewrite Ef; left; reflexivity).
      apply filter_In in Hin. destruct Hin as [Hin Hn].
      apply String.eqb_eq in Hn. exact (Hall h0 Hin Hn).
Qed.

(* ================================================================== *)
(** ** Headers, validation and policies *)
(* ================================================================== *)

Lemma getCookies_headers parse hs hs' r r' :
  headers r = hs -> headers r' = hs' ->
  List.map (fun h => Js.toLowerCase (Header.name h)) hs
  = List.map (fun h => Js.toLowerCase (Header.name h)) hs' ->
  List.map Header.value hs = List.map Header.value hs' ->
  getCookies parse r = getCookies parse r'.
Proof.
  intros <- <-. unfold getCookies.
  generalize (headers r') as l'. induction (headers r) as [|h l IH];
    intros [|h' l'] Hn Hv; try discriminate; [reflexivity|].
  cbn in Hn, Hv. injection Hn as Hn Hn'. injection Hv as Hv Hv'.
  cbn [List.filter]. rewrite Hn.
  destruct (Js.toLowerCase (Header.name h') =? "set-cookie");
    cbn [List.map]; rewrite (IH l' Hn' Hv'); [rewrite Hv|]; reflexivity.
Qed.

(** X13.  Header names are matched without regard to letter case, and
    nothing else of a header name matters: two responses with the same
    status code and error whose headers carry the same values under names
    that are equal after lower-casing yield the same parsed cookies and the
    same outcome of validation and selection. *)
Theorem header_names_are_case_insensitive :
  forall parse name r r' st,
    statusCode r = statusCode r' ->
    error r = error r' ->
    List.map (fun h => Js.toLowerCase (Header.name h)) (headers r)
    = List.map (fun h => Js.toLowerCase (Header.name h)) (headers r') ->
    List.map Header.value (headers r) = List.map Header.value (headers r') ->
    getCookies parse r = getCookies parse r'
    /\ extractCookie parse name (Some r) st
       = extractCookie parse name (Some r') st.
Proof.
  intros parse name r r' st Hs He Hn Hv.
  pose proof (getCookies_headers parse _ _ r r' eq_refl eq_refl Hn Hv) as Hc.
  split; [exact Hc|].
  unfold extractCookie. rewrite Hs, He, Hc. reflexivity.
Qed.

(** X14.  Validation tests truthiness: a response whose [error] is the
    empty string is treated exactly like one without error, and a response
    without error whose status code is [0] fails like one without status
    code, with "No successful responses for request" and the log line
    "Invalid status code 0". *)
Theorem validation_tests_truthiness :
  forall parse name r st,
    (error r = Some "" ->
     extractCookie parse name (Some r) st
     = extractCookie parse name (Some (with_error r None)) st)
    /\ (Js.truthy_string (error r) = false ->
        statusCode r = Some 0 ->
        extractCookie parse name (Some r) st
        = (Js.Throw (Js.Error "No successful responses for request"),
           {| heap := heap st;
              console := app (console st)
                           ["[responseCookie tag] Invalid status code 0"];
              sent := sent st |})).
Proof.
  intros parse name r st. split.
  - intros He. unfold extractCookie. rewrite He.
    cbn [error with_error statusCode Js.truthy_string String.eqb negb].
    reflexivity.
  - intros He Hs. unfold extractCookie. rewrite He, Hs. reflexivity.
Qed.

(** X15.  With a trigger behaviour that normalises to none of ["always"],
    ["no-history"], ["when-expired"] (so with ["never"], with the default,
    and with any unknown string), and with ["no-history"] once a response is
    stored, [run] is a read of the stored response: whatever the render
    purpose, the chain and the transport are, its result and final state
    are those of validating and extracting from the latest stored
    response. *)
Theorem run_reads_stored_response_without_resend :
  forall Date_now parse context args st id name request,
    arg0 args = Some id -> id <> "" ->
    arg1 args = Some name -> name <> "" ->
    request_getById context id = Some request ->
    let known :=
      response_getLatestForRequestId context (_id request)
        (getEnvironmentId context) in
    let t := triggerBehavior (parseOptions args) in
    (t <> TriggerBehavior.Always /\ t <> TriggerBehavior.NoHistory
     /\ t <> TriggerBehavior.WhenExpired)
    \/ (t = TriggerBehavior.NoHistory /\ known <> None) ->
    run Date_now parse context args st = extractCookie parse name known st.
Proof.
  intros Date_now parse context args st id name request
         H0 Hn0 H1 Hn1 Hreq known t Hpol.
  apply (run_no_resend _ _ _ _ _ _ _ _ H0 Hn0 H1 Hn1 Hreq).
  fold known.
  assert (Hd : checkShouldResend Date_now known (parseOptions args) = false).
  { unfold checkShouldResend. fold t.
    destruct Hpol as [[Ha [Hh He]]|[Hh Hk]].
    - apply String.eqb_neq in Ha, Hh, He. rewrite Ha, Hh, He. reflexivity.
    - rewrite Hh. cbn. destruct known; [reflexivity|congruence]. }
  rewrite Hd. reflexivity.
Qed.

(* ================================================================== *)
(** ** Instances of the further properties *)
(* ================================================================== *)

Lemma run_validates_arguments_first_witness :
  run (after 1000) parse_cookie
    (host req_1 (Some (stored session_headers)) (Some "send") None None)
    {| arg0 := Some ""; arg1 := None; arg2 := Some "always"; arg3 := None |}
    (state0 [])
  = (Js.Throw (Js.Error "No request specified"), state0 [])
  /\ run (after 1000) parse_cookie
       (host req_1 (Some (stored session_headers)) (Some "send") None None)
       {| arg0 := Some "req_2"; arg1 := Some ""; arg2 := None; arg3 := None |}
       (state0 [])
     = (Js.Throw (Js.Error "No cookie specified"), state0 []).
Proof.
  split.
  - apply (proj1 (run_validates_arguments_first (after 1000) parse_cookie
                    (host req_1 (Some (stored session_headers)) (Some "send")
                       None None)
                    {| arg0 := Some ""; arg1 := None; arg2 := Some "always";
                       arg3 := None |}
                    (state0 []))).
    reflexivity.
  - apply (proj2 (run_validates_arguments_first (after 1000) parse_cookie
                    (host req_1 (Some (stored session_headers)) (Some "send")
                       None None)
                    {| arg0 := Some "req_2"; arg1 := Some ""; arg2 := None;
                       arg3 := None |}
                    (state0 []))); reflexivity.
Defined.

Lemma run_ignores_trigger_case_witness :
  run (after 120000) parse_cookie
    (host req_1 (Some (stored [])) (Some "send") None
       (Some (stored session_headers)))
    (args_of "session" (Some "When-Expired") (Some (Js.of_Z 60))) (state0 [])
  = run (after 120000) parse_cookie
      (host req_1 (Some (stored [])) (Some "send") None
         (Some (stored session_headers)))
      (args_of "session" (Some "when-expired") (Some (Js.of_Z 60))) (state0 []).
Proof.
  apply (run_ignores_trigger_case (after 120000) parse_cookie
           (host req_1 (Some (stored [])) (Some "send") None
              (Some (stored session_headers)))
           (args_of "session" (Some "When-Expired") (Some (Js.of_Z 60)))
           (args_of "session" (Some "when-expired") (Some (Js.of_Z 60)))
           (state0 []));
    reflexivity.
Defined.

Lemma hide_only_when_maxAge_is_irrelevant_witness :
  hide {| obj0 := Some (Arg.mk (Some "req_1"));
          obj1 := Some (Arg.mk (Some "session"));
          obj2 := Some (Arg.mk (Some "No-History"));
          obj3 := Some (Arg.mk (Some (Js.of_Z 60))) |} = true
  /\ checkShouldResend (after 120000) (Some (stored []))
       (with_maxAgeSeconds
          (parseOptions
             (values {| obj0 := Some (Arg.mk (Some "req_1"));
                        obj1 := Some (Arg.mk (Some "session"));
                        obj2 := Some (Arg.mk (Some "No-History"));
                        obj3 := Some (Arg.mk (Some (Js.of_Z 60))) |}))
          (Some (Js.of_Z 60)))
     = checkShouldResend (after 120000) (Some (stored []))
         (with_maxAgeSeconds
            (parseOptions
               (values {| obj0 := Some (Arg.mk (Some "req_1"));
                          obj1 := Some (Arg.mk (Some "session"));
                          obj2 := Some (Arg.mk (Some "No-History"));
                          obj3 := Some (Arg.mk (Some (Js.of_Z 60))) |}))
            None).
Proof.
  split; [reflexivity|].
  apply (proj2 (hide_only_when_maxAge_is_irrelevant
                  {| obj0 := Some (Arg.mk (Some "req_1"));
                     obj1 := Some (Arg.mk (Some "session"));
                     obj2 := Some (Arg.mk (Some "No-History"));
                     obj3 := Some (Arg.mk (Some (Js.of_Z 60))) |})).
  reflexivity.
Defined.

Lemma when_expired_NaN_never_resends_witness :
  checkShouldResend (after 120000)
    (Some {| created := Js.NaN; statusCode := Some 200; error := None;
             headers := [] |})
    (parseOptions (args_of "session" (Some "when-expired") (Some (Js.of_Z 60))))
  = false.
Proof.
  apply (when_expired_NaN_never_resends (after 120000)
           {| created := Js.NaN; statusCode := Some 200; error := None;
              headers := [] |}
           (parseOptions (args_of "session" (Some "when-expired")
                            (Some (Js.of_Z 60)))));
    [reflexivity|right; left; reflexivity].
Defined.

Lemma when_expired_monotone_in_maxAge_witness :
  checkShouldResend (after 120000) (Some (stored []))
    (parseOptions (args_of "session" (Some "when-expired") (Some (Js.of_Z 60))))
  = true.
Proof.
  apply (when_expired_monotone_in_maxAge (after 120000) (stored [])
           (parseOptions (args_of "session" (Some "when-expired")
                            (Some (Js.of_Z 60))))
           (parseOptions (args_of "session" (Some "when-expired")
                            (Some (Js.of_Z 90))))
           (Js.of_Z 60) (Js.of_Z 90)
           (number_of (Js.of_Z 60)) (number_of (Js.of_Z 90)));
    try (vm_compute; reflexivity).
  vm_compute. discriminate.
Defined.


Lemma run_calls_transport_at_most_once_witness :
  exists calls,
    sent (snd (run (after 120000) parse_cookie
                 (host req_1 (Some (stored [])) (Some "send") None
                    (Some (stored session_headers)))
                 (args_of "session" (Some "always") None) (state0 [])))
    = app (sent (state0 [])) calls
    /\ (List.length calls <= 1)%nat
    /\ (forall call,
           In call calls ->
           (exists id,
               arg0 (args_of "session" (Some "always") None) = Some id
               /\ request_getById
                    (host req_1 (Some (stored [])) (Some "send") None
                       (Some (stored session_headers))) id
                  = Some (sent_request call))
           /\ exists r, sent_extraInfo call = [("requestChain", r)]).
Proof.
  exact (run_calls_transport_at_most_once (after 120000) parse_cookie
           (host req_1 (Some (stored [])) (Some "send") None
              (Some (stored session_headers)))
           (args_of "session" (Some "always") None) (state0 [])).
Defined.

Lemma run_log_lines_are_prefixed_witness :
  exists lines,
    console (snd (run (after 120000) parse_cookie
                    (host req_1 None (Some "send") None None)
                    (args_of "session" (Some "always") None) (state0 [])))
    = app (console (state0 [])) lines
    /\ (List.length lines <= 2)%nat
    /\ Forall (fun l => String.prefix "[responseCookie tag] " l = true) lines
    /\ (forall v,
           fst (run (after 120000) parse_cookie
                  (host req_1 None (Some "send") None None)
                  (args_of "session" (Some "always") None) (state0 []))
           = Js.Normal v ->
           (List.length lines <= 1)%nat).
Proof.
  exact (run_log_lines_are_prefixed (after 120000) parse_cookie
           (host req_1 None (Some "send") None None)
           (args_of "session" (Some "always") None) (state0 [])).
Defined.

Lemma nested_resend_is_guarded_witness :
  exists r,
    [("requestChain", 0%nat)] = [("requestChain", r)]
    /\ In "req_1" (heap_get [["req_1"]] r)
    /\ forall context' st',
         getExtraInfo context' "requestChain" = Some r ->
         incl (heap_get [["req_1"]] r) (heap_get (heap st') r) ->
         fst (resendRequest context' req_1 st') = Js.Normal None
         /\ sent (snd (resendRequest context' req_1 st')) = sent st'.
Proof.
  exact (nested_resend_is_guarded
           (host req_1 None (Some "send") None None) req_1 (state0 [])
           {| sent_request := req_1;
              sent_extraInfo := [("requestChain", 0%nat)];
              sent_heap := [["req_1"]] |}
           ltac:(intros r H; discriminate H)
           eq_refl).
Defined.


Lemma run_value_is_first_matching_cookie_witness :
  exists id name request r cs c,
    arg0 (args_of "b" None None) = Some id
    /\ arg1 (args_of "b" None None) = Some name
    /\ request_getById
         (host req_1
            (Some (stored [Header.mk "Set-Cookie" "a=1";
                           Header.mk "Set-Cookie" "b=2";
                           Header.mk "Set-Cookie" "b=3"]))
            (Some "preview") None None) id
       = Some request
    /\ (response_getLatestForRequestId
          (host req_1
             (Some (stored [Header.mk "Set-Cookie" "a=1";
                            Header.mk "Set-Cookie" "b=2";
                            Header.mk "Set-Cookie" "b=3"]))
             (Some "preview") None None)
          (_id request)
          (getEnvironmentId
             (host req_1
                (Some (stored [Header.mk "Set-Cookie" "a=1";
                               Header.mk "Set-Cookie" "b=2";
                               Header.mk "Set-Cookie" "b=3"]))
                (Some "preview") None None))
        = Some r
        \/ exists extra h,
            fst (network_sendRequest
                   (host req_1
                      (Some (stored [Header.mk "Set-Cookie" "a=1";
                                     Header.mk "Set-Cookie" "b=2";
                                     Header.mk "Set-Cookie" "b=3"]))
                      (Some "preview") None None)
                   request extra h) = Some r)
    /\ passes_validation r
    /\ getCookies parse_cookie r = List.map Some cs
    /\ first_match (fun c => Cookie.key c =? name) cs = Some c
    /\ Cookie.value c = "2".
Proof.
  exact (run_value_is_first_matching_cookie (after 1000) parse_cookie
           (host req_1
              (Some (stored [Header.mk "Set-Cookie" "a=1";
                             Header.mk "Set-Cookie" "b=2";
                             Header.mk "Set-Cookie" "b=3"]))
              (Some "preview") None None)
           (args_of "b" None None) (state0 []) "2" eq_refl).
Defined.

Lemma no_cookies_iff_no_set_cookie_header_witness :
  fst (run (after 1000) parse_cookie
         (host req_1 (Some (stored [Header.mk "Content-Type" "text/html"]))
            (Some "send") None None)
         (args_of "session" None None) (state0 []))
  = Js.Throw (Js.Error "No cookies set for response").
Proof.
  apply (proj2
           (no_cookies_iff_no_set_cookie_header (after 1000) parse_cookie
              (host req_1 (Some (stored [Header.mk "Content-Type" "text/html"]))
                 (Some "send") None None)
              (args_of "session" None None) (state0 [])
              "req_1" "session" req_1
              (stored [Header.mk "Content-Type" "text/html"]) (state0 [])
              eq_refl ltac:(discriminate) eq_refl ltac:(discriminate)
              eq_refl eq_refl (conj eq_refl eq_refl))).
  intros h [<-|[]]. discriminate.
Defined.

Lemma header_names_are_case_insensitive_witness :
  extractCookie parse_cookie "a"
    (Some (stored [Header.mk "SET-Cookie" "a=1"])) (state0 [])
  = extractCookie parse_cookie "a"
      (Some (stored [Header.mk "set-cookie" "a=1"])) (state0 []).
Proof.
  apply (proj2
           (header_names_are_case_insensitive parse_cookie "a"
              (stored [Header.mk "SET-Cookie" "a=1"])
              (stored [Header.mk "set-cookie" "a=1"]) (state0 [])
              eq_refl eq_refl eq_refl eq_refl)).
Defined.

Lemma validation_tests_truthiness_witness :
  extractCookie parse_cookie "session"
    (Some (response_of t0 (Some 200) (Some "") session_headers)) (state0 [])
  = extractCookie parse_cookie "session"
      (Some (with_error (response_of t0 (Some 200) (Some "") session_headers)
               None))
      (state0 [])
  /\ fst (extractCookie parse_cookie "session"
            (Some (response_of t0 (Some 0) None session_headers)) (state0 []))
     = Js.Throw (Js.Error "No successful responses for request").
Proof.
  split.
  - apply (proj1 (validation_tests_truthiness parse_cookie "session"
                    (response_of t0 (Some 200) (Some "") session_headers)
                    (state0 []))).
    reflexivity.
  - rewrite (proj2 (validation_tests_truthiness parse_cookie "session"
                      (response_of t0 (Some 0) None session_headers)
                      (state0 []))
               eq_refl eq_refl).
    reflexivity.
Defined.

Lemma run_reads_stored_response_without_resend_witness :
  run (after 120000) parse_cookie
    (host req_1 (Some (stored [Header.mk "Set-Cookie" "session=old"]))
       (Some "send") None (Some (stored session_headers)))
    (args_of "session" (Some "sometimes") None) (state0 [])
  = (Js.Normal "old", state0 []).
Proof.
  rewrite (run_reads_stored_response_without_resend (after 120000) parse_cookie
             (host req_1 (Some (stored [Header.mk "Set-Cookie" "session=old"]))
                (Some "send") None (Some (stored session_headers)))
             (args_of "session" (Some "sometimes") None) (state0 [])
             "req_1" "session" req_1
             eq_refl ltac:(discriminate) eq_refl ltac:(discriminate) eq_refl
             ltac:(left; repeat split; discriminate)).
  reflexivity.
Defined.
